(** * visual_inspection.py: annotation normalizer and coordinate mapper

    A shallow embedding of [src/visual_inspection.py]:
    - the builtins the parser leans on ([str.split], [str.lower], [int],
      [float], [os.path.splitext]) on byte strings;
    - [parse_annotations], [draw_bounding_boxes] and the event handlers of
      [BoundingBoxViewerApp] that touch the zoom level, the offsets and the
      list of freehand drawings.

    Python [float] is IEEE binary64; it is modelled by the primitive floats
    of the kernel, so every evaluation below is bit-exact.  Python [int] is
    [Z].  The coordinate arithmetic of the viewer is written once over a
    small interface of number operations and instantiated twice: with
    binary64 (what the program runs on) and with the rationals (what the
    arithmetic would be without rounding). *)

From Stdlib Require Import ZArith List String Ascii Bool Lia QArith Qabs Qpower Qfield.
From Stdlib Require Import Floats.
Import ListNotations.

Set Warnings "-inexact-float,-register-all".
Set Implicit Arguments.
Local Open Scope string_scope.
Local Open Scope list_scope.
Local Open Scope Z_scope.

(* ================================================================== *)
(** * Exceptions *)

(** The exception classes that the code under study can meet.  All of them
    derive from [Exception]; [JSONDecodeError] derives from [ValueError]. *)
Inductive exn : Type :=
| FileNotFoundError
| JSONDecodeError
| ParseError              (* xml.etree.ElementTree.ParseError *)
| ValueError
| TypeError
| AttributeError
| IndexError
| OverflowError
| ZeroDivisionError
| OtherError (name : string).  (* PermissionError, MemoryError, ... *)

Inductive result (A : Type) : Type :=
| Ok (a : A)
| Raise (e : exn).
Arguments Ok {A} a.
Arguments Raise {A} e.

Definition bind {A B} (r : result A) (k : A -> result B) : result B :=
  match r with
  | Ok a => k a
  | Raise e => Raise e
  end.

Declare Scope py_scope.
Delimit Scope py_scope with py.
Notation "x <- c ;; k" := (bind c (fun x => k))
  (at level 61, c at next level, right associativity) : py_scope.
Local Open Scope py_scope.

(* ================================================================== *)
(** * Strings *)

Module PyStr.

Definition chars := list ascii.

(** [str.isspace] on the 8-bit range: TAB..CR, FS..US and SPACE. *)
Definition is_space (c : ascii) : bool :=
  let n := N_of_ascii c in
  ((9 <=? n) && (n <=? 13) || (28 <=? n) && (n <=? 32))%N.

Definition is_digit (c : ascii) : bool :=
  let n := N_of_ascii c in ((48 <=? n) && (n <=? 57))%N.

Definition digit_val (c : ascii) : Z := Z.of_N (N_of_ascii c) - 48.

(** [str.lower], ASCII letters. *)
Definition lower_char (c : ascii) : ascii :=
  let n := N_of_ascii c in
  if ((65 <=? n) && (n <=? 90))%N then ascii_of_N (n + 32) else c.

Definition lower_chars (s : chars) : chars := map lower_char s.

Definition lower (s : string) : string :=
  string_of_list_ascii (lower_chars (list_ascii_of_string s)).

Fixpoint lstrip (s : chars) : chars :=
  match s with
  | c :: r => if is_space c then lstrip r else s
  | [] => []
  end.

Definition strip_chars (s : chars) : chars := rev (lstrip (rev (lstrip s))).

Definition strip (s : string) : string :=
  string_of_list_ascii (strip_chars (list_ascii_of_string s)).

(** [str.split()] with no argument: maximal runs of non-space characters.
    [cur] is the current token, reversed. *)
Fixpoint split_go (s : chars) (cur : chars) : list chars :=
  match s with
  | [] => match cur with [] => [] | _ => [rev cur] end
  | c :: r =>
      if is_space c
      then match cur with
           | [] => split_go r []
           | _ => rev cur :: split_go r []
           end
      else split_go r (c :: cur)
  end.

Definition split_chars (s : chars) : list chars := split_go s [].

Definition split (s : string) : list string :=
  map string_of_list_ascii (split_chars (list_ascii_of_string s)).

(** Iterating a text file opened in the default (universal newlines) mode:
    the lines end at LF, CR LF or CR.  The line terminator is dropped
    here; the only consumer strips the line anyway. *)
Definition LF : ascii := ascii_of_N 10.
Definition CR : ascii := ascii_of_N 13.

Fixpoint lines_go (s : chars) (cur : chars) : list chars :=
  match s with
  | [] => match cur with [] => [] | _ => [rev cur] end
  | c :: r =>
      if Ascii.eqb c LF then rev cur :: lines_go r []
      else if Ascii.eqb c CR then
        match r with
        | c' :: r' =>
            if Ascii.eqb c' LF then rev cur :: lines_go r' []
            else rev cur :: lines_go r []
        | [] => [rev cur]
        end
      else lines_go r (c :: cur)
  end.

Definition file_lines (text : string) : list string :=
  map string_of_list_ascii (lines_go (list_ascii_of_string text) []).

(** [needle in haystack] for strings. *)
Fixpoint is_prefix (p s : chars) : bool :=
  match p, s with
  | [], _ => true
  | a :: p', b :: s' => Ascii.eqb a b && is_prefix p' s'
  | _ :: _, [] => false
  end.

Fixpoint contains_chars (needle hay : chars) : bool :=
  is_prefix needle hay ||
  match hay with
  | [] => false
  | _ :: r => contains_chars needle r
  end.

Definition contains (needle hay : string) : bool :=
  contains_chars (list_ascii_of_string needle) (list_ascii_of_string hay).

(** Decimal rendering of an integer, as [str(int)] and the f-string do. *)
Definition digit_char (d : Z) : ascii := ascii_of_N (Z.to_N d + 48).

Fixpoint digits_fuel (fuel : nat) (n : Z) (acc : chars) : chars :=
  match fuel with
  | O => acc
  | S k =>
      if n <? 10 then digit_char n :: acc
      else digits_fuel k (n / 10) (digit_char (n mod 10) :: acc)
  end.

Definition str_of_int (n : Z) : string :=
  let body := digits_fuel (S (Z.to_nat (Z.log2 (Z.abs n)))) (Z.abs n) [] in
  string_of_list_ascii (if n <? 0 then "-"%char :: body else body).

End PyStr.

(* ================================================================== *)
(** * Numbers: the builtins [int] and [float] *)

Module PyNum.
Import PyStr.

(** ** binary64 and [int] *)

(** [float(n)] for an [int]: the nearest binary64, [OverflowError] when
    there is none. *)
Definition float_of_int (n : Z) : result float :=
  match binary_normalize prec emax n 0 false with
  | S754_infinity _ => Raise OverflowError
  | sf => Ok (SF2Prim sf)
  end.

(** [int(x)] for a float: truncation toward zero. *)
Definition int_of_float (x : float) : result Z :=
  match Prim2SF x with
  | S754_zero _ => Ok 0
  | S754_finite s m e =>
      let mag := match e with
                 | Zneg k => Z.shiftr (Zpos m) (Zpos k)
                 | _ => Z.shiftl (Zpos m) e
                 end in
      Ok (if s then - mag else mag)
  | S754_infinity _ => Raise OverflowError
  | S754_nan => Raise ValueError
  end.

(** ** Numeric literals in strings *)

(** Underscores may group digits: each one must stand between two
    digits.  The result is the string without them. *)
Fixpoint drop_underscores (prev : option ascii) (s : chars) : option chars :=
  match s with
  | [] => match prev with
          | Some "_"%char => None
          | _ => Some []
          end
  | c :: r =>
      if Ascii.eqb c "_"%char then
        match prev with
        | Some p => if is_digit p then drop_underscores (Some c) r else None
        | None => None
        end
      else
        match prev with
        | Some "_"%char =>
            if is_digit c
            then option_map (cons c) (drop_underscores (Some c) r)
            else None
        | _ => option_map (cons c) (drop_underscores (Some c) r)
        end
  end.

(** A sign, then the rest. *)
Definition take_sign (s : chars) : bool * chars :=
  match s with
  | "-"%char :: r => (true, r)
  | "+"%char :: r => (false, r)
  | _ => (false, s)
  end.

(** The longest prefix of digits, as (value, number of digits, rest). *)
Fixpoint take_digits (s : chars) (acc : Z) (n : Z) : Z * Z * chars :=
  match s with
  | c :: r => if is_digit c then take_digits r (10 * acc + digit_val c) (n + 1)
              else (acc, n, s)
  | [] => (acc, n, [])
  end.

(** [int(s)] for a string, base 10. *)
Definition int_of_chars (s : chars) : result Z :=
  match drop_underscores None (strip_chars s) with
  | None => Raise ValueError
  | Some t =>
      let '(neg, body) := take_sign t in
      match take_digits body 0 0 with
      | (v, n, []) => if 0 <? n then Ok (if neg then - v else v)
                      else Raise ValueError
      | _ => Raise ValueError
      end
  end.

Definition int_of_string (s : string) : result Z :=
  int_of_chars (list_ascii_of_string s).

(** A non-negative integer as an exact (unrounded) binary number. *)
Definition sf_of_nat_int (n : Z) : spec_float :=
  match n with
  | Zpos p => S754_finite false p 0
  | _ => S754_zero false
  end.

(** The nearest binary64 to [(-1)^neg * m * 10^e10].  Values that are
    surely beyond the largest binary64 ([10^310 > 2^1024]) or surely below
    half the smallest one ([m < 2^(log2 m + 1)] and [10^-k < 2^(-3k)])
    are settled without building the power of ten. *)
Definition decimal_to_float (neg : bool) (m : Z) (e10 : Z) : float :=
  if m =? 0 then (if neg then neg_zero else zero)
  else if 310 <=? e10 then (if neg then neg_infinity else infinity)
  else if Z.log2 m + 1 + 3 * e10 <? -1075 then (if neg then neg_zero else zero)
  else
    let sf :=
      if 0 <=? e10
      then binary_normalize prec emax (m * 10 ^ e10) 0 false
      else SFdiv prec emax (sf_of_nat_int m) (sf_of_nat_int (10 ^ (- e10)))
    in
    let v := SF2Prim sf in
    if neg then PrimFloat.opp v else v.

(** [inf], [infinity], [nan], in any letter case. *)
Definition special_float (neg : bool) (body : chars) : option float :=
  let l := string_of_list_ascii (lower_chars body) in
  if (l =? "inf")%string || (l =? "infinity")%string
  then Some (if neg then neg_infinity else infinity)
  else if (l =? "nan")%string then Some nan
  else None.

(** The exponent part: empty, or [e], an optional sign and digits. *)
Definition take_exponent (s : chars) : option Z :=
  match s with
  | [] => Some 0
  | c :: r =>
      if Ascii.eqb (lower_char c) "e"%char then
        let '(eneg, r') := take_sign r in
        match take_digits r' 0 0 with
        | (v, n, []) => if 0 <? n then Some (if eneg then - v else v) else None
        | _ => None
        end
      else None
  end.

(** [float(s)] for a string. *)
Definition float_of_chars (s : chars) : result float :=
  match drop_underscores None (strip_chars s) with
  | None => Raise ValueError
  | Some t =>
      let '(neg, body) := take_sign t in
      match special_float neg body with
      | Some v => Ok v
      | None =>
          let '(ip, ni, r1) := take_digits body 0 0 in
          let '(m, nf, r2) :=
            match r1 with
            | "."%char :: r => take_digits r ip 0
            | _ => (ip, 0, r1)
            end in
          if 0 <? ni + nf then
            match take_exponent r2 with
            | Some e => Ok (decimal_to_float neg m (e - nf))
            | None => Raise ValueError
            end
          else Raise ValueError
      end
  end.

Definition float_of_string (s : string) : result float :=
  float_of_chars (list_ascii_of_string s).

End PyNum.

Import PyStr PyNum.

(* ================================================================== *)
(** * [os.path.splitext] *)

Module PyPath.

Definition is_sep (c : ascii) : bool := Ascii.eqb c "/"%char.
Definition is_dot (c : ascii) : bool := Ascii.eqb c "."%char.

(** The path cut after its last separator: (directory part, basename). *)
Fixpoint split_last_sep (s : chars) : chars * chars :=
  match s with
  | [] => ([], [])
  | c :: r =>
      let '(d, b) := split_last_sep r in
      match d with
      | [] => if is_sep c then ([c], b) else ([], c :: b)
      | _ => (c :: d, b)
      end
  end.

(** The leading dots of a basename and what follows them. *)
Fixpoint span_dots (s : chars) : chars * chars :=
  match s with
  | c :: r => if is_dot c then let '(d, t) := span_dots r in (c :: d, t)
              else ([], s)
  | [] => ([], [])
  end.

(** A name cut before its last dot, when it has one. *)
Fixpoint split_last_dot (s : chars) : option (chars * chars) :=
  match s with
  | [] => None
  | c :: r =>
      match split_last_dot r with
      | Some (a, b) => Some (c :: a, b)
      | None => if is_dot c then Some ([], c :: r) else None
      end
  end.

(** [posixpath.splitext]: the extension starts at the last dot of the
    basename, leading dots of the basename not counted. *)
Definition splitext_chars (p : chars) : chars * chars :=
  let '(dir, base) := split_last_sep p in
  let '(dots, name) := span_dots base in
  match split_last_dot name with
  | Some (stem, ext) => (dir ++ dots ++ stem, ext)
  | None => (p, [])
  end.

Definition splitext (p : string) : string * string :=
  let '(r, e) := splitext_chars (list_ascii_of_string p) in
  (string_of_list_ascii r, string_of_list_ascii e).

End PyPath.
Import PyPath.

(* ================================================================== *)
(** * Decoded documents *)

(** What [json.load] returns. *)
Inductive json : Type :=
| JNull
| JBool (b : bool)
| JInt (n : Z)
| JFloat (x : float)
| JStr (s : string)
| JList (l : list json)
| JDict (d : list (string * json)).

(** What [ET.parse(...).getroot()] returns: an element with its tag, its
    text (None when there is none) and its child elements. *)
Inductive xml : Type :=
| Element (tag : string) (text : option string) (children : list xml).

Module PyObj.

(** [bool(v)] *)
Definition truthy (v : json) : bool :=
  match v with
  | JNull => false
  | JBool b => b
  | JInt n => negb (n =? 0)
  | JFloat x => negb (PrimFloat.eqb x 0)
  | JStr s => negb (s =? "")%string
  | JList l => match l with [] => false | _ => true end
  | JDict d => match d with [] => false | _ => true end
  end.

Definition is_none (v : json) : bool :=
  match v with JNull => true | _ => false end.

(** [d.get(k)] and [d.get(k, default)] on the bindings of a dict; a
    missing key reads as [None]. *)
Fixpoint dict_get (k : string) (d : list (string * json)) : json :=
  match d with
  | [] => JNull
  | (k', v) :: r => if (k' =? k)%string then v else dict_get k r
  end.

Fixpoint dict_has (k : string) (d : list (string * json)) : bool :=
  match d with
  | [] => false
  | (k', _) :: r => (k' =? k)%string || dict_has k r
  end.

Definition dict_get_default (k : string) (dflt : json)
           (d : list (string * json)) : json :=
  if dict_has k d then dict_get k d else dflt.

(** [v.get(k)]: only a dict has the method. *)
Definition get (v : json) (k : string) : result json :=
  match v with
  | JDict d => Ok (dict_get k d)
  | _ => Raise AttributeError
  end.

Definition is_the_str (k : string) (v : json) : bool :=
  match v with JStr s => (s =? k)%string | _ => false end.

(** [k in v] for a string [k]. *)
Definition str_in (k : string) (v : json) : result bool :=
  match v with
  | JDict d => Ok (dict_has k d)
  | JStr s => Ok (contains k s)
  | JList l => Ok (existsb (is_the_str k) l)
  | _ => Raise TypeError
  end.

(** [v[k]] for a string [k]. *)
Definition subscript_str (v : json) (k : string) : result json :=
  match v with
  | JDict d => if dict_has k d then Ok (dict_get k d)
               else Raise (OtherError "KeyError")
  | _ => Raise TypeError
  end.

(** The values a [for] loop over [v] visits. *)
Definition iterate (v : json) : result (list json) :=
  match v with
  | JList l => Ok l
  | JDict d => Ok (map (fun kv => JStr (fst kv)) d)
  | JStr s => Ok (map (fun c => JStr (String c EmptyString))
                      (list_ascii_of_string s))
  | _ => Raise TypeError
  end.

(** [int(v)] *)
Definition to_int (v : json) : result Z :=
  match v with
  | JInt n => Ok n
  | JBool b => Ok (if b then 1 else 0)
  | JFloat x => int_of_float x
  | JStr s => int_of_string s
  | _ => Raise TypeError
  end.

(** [a + b] *)
Definition add (a b : json) : result json :=
  let as_int v := match v with
                  | JInt n => Some n
                  | JBool b => Some (if b then 1 else 0)
                  | _ => None
                  end in
  match a, b with
  | JFloat x, JFloat y => Ok (JFloat (x + y)%float)
  | JFloat x, _ =>
      match as_int b with
      | Some n => y <- float_of_int n ;; Ok (JFloat (x + y)%float)
      | None => Raise TypeError
      end
  | _, JFloat y =>
      match as_int a with
      | Some n => x <- float_of_int n ;; Ok (JFloat (x + y)%float)
      | None => Raise TypeError
      end
  | JStr s, JStr t => Ok (JStr (s ++ t)%string)
  | JList l, JList m => Ok (JList (l ++ m))
  | _, _ =>
      match as_int a, as_int b with
      | Some n, Some m => Ok (JInt (n + m))
      | _, _ => Raise TypeError
      end
  end.

End PyObj.

(* ================================================================== *)
(** * The normalizer's data *)

(** One entry of the list [parse_annotations] returns.  The label is
    whatever object the file gave: a string, but also [None] for an empty
    XML [name] or any JSON value. *)
Record box : Type := Box {
  label : json;
  x_min : Z;
  y_min : Z;
  x_max : Z;
  y_max : Z
}.

(** The lines [parse_annotations] prints. *)
Inductive log_line : Type :=
| WarnJsonStructure (path : string)
| WarnNoClassNames (path : string)
| UnsupportedFormat (ext path : string)
| NotFound (path : string)
| ErrorParsing (path : string) (e : exn)
| Unexpected (path : string) (e : exn).

(** The files, seen through the three readers the parser calls. *)
Record world : Type := World {
  json_load : string -> result json;    (* open(path) and json.load *)
  ET_parse : string -> result xml;      (* ET.parse(path).getroot() *)
  read_text : string -> result string   (* open(path) and its text *)
}.

(** A run of the [try] block: the list built so far, what was printed,
    and the exception that ended the block, if one did. *)
Record run : Type := Run {
  annotations : list box;
  printed : list log_line;
  raised : option exn
}.

Inductive format : Type := Json | Xml | Yolo | Unsupported.

(* ================================================================== *)
(** * [parse_annotations] *)

Module Normalizer.
Import PyObj.

(** line 27 *)
Definition file_extension (annotation_path : string) : string :=
  lower (snd (splitext annotation_path)).

(** The [if / elif / elif / else] chain of lines 30, 54, 73 and 101. *)
Definition format_of (file_extension : string) : format :=
  if (file_extension =? ".json")%string then Json
  else if (file_extension =? ".xml")%string then Xml
  else if (file_extension =? ".txt")%string then Yolo
  else Unsupported.

(** A [for] loop whose body appends at most one box to the list and may
    raise: the exception leaves the loop with the list as it stands. *)
Fixpoint for_each {A} (body : A -> result (option box)) (items : list A)
         (acc : list box) : list box * option exn :=
  match items with
  | [] => (acc, None)
  | a :: rest =>
      match body a with
      | Ok (Some b) => for_each body rest (acc ++ [b])
      | Ok None => for_each body rest acc
      | Raise e => (acc, Some e)
      end
  end.

(** ** Custom JSON, lines 31-52 *)

(** Lines 36-50, for one [anno]. *)
Definition json_entry (anno : json) : result (option box) :=
  label <- match anno with
           | JDict d => Ok (dict_get_default "label" (JStr "No Label") d)
           | _ => Raise AttributeError
           end ;;
  coords <- get anno "coordinates" ;;
  if truthy coords then
    x <- get coords "x" ;;
    y <- get coords "y" ;;
    width <- get coords "width" ;;
    height <- get coords "height" ;;
    if forallb (fun v => negb (is_none v)) [x; y; width; height] then
      xmin <- to_int x ;;
      ymin <- to_int y ;;
      xw <- add x width ;;
      xmax <- to_int xw ;;
      yh <- add y height ;;
      ymax <- to_int yh ;;
      Ok (Some (Box label xmin ymin xmax ymax))
    else Ok None
  else Ok None.

(** Line 34: [annotations_data and isinstance(annotations_data, list)
    and 'annotations' in annotations_data[0]]. *)
Definition json_shape_ok (annotations_data : json) : result bool :=
  if truthy annotations_data then
    match annotations_data with
    | JList (first :: _) => str_in "annotations" first
    | _ => Ok false
    end
  else Ok false.

(** Line 35: the values the loop runs over. *)
Definition json_entries (annotations_data : json) : result (list json) :=
  match annotations_data with
  | JList (first :: _) =>
      v <- subscript_str first "annotations" ;; iterate v
  | _ => Raise TypeError
  end.

Definition parse_json (w : world) (annotation_path : string) : run :=
  match json_load w annotation_path with
  | Raise e => Run [] [] (Some e)
  | Ok annotations_data =>
      match json_shape_ok annotations_data with
      | Raise e => Run [] [] (Some e)
      | Ok false => Run [] [WarnJsonStructure annotation_path] None
      | Ok true =>
          match json_entries annotations_data with
          | Raise e => Run [] [] (Some e)
          | Ok entries =>
              let '(acc, e) := for_each json_entry entries [] in
              Run acc [] e
          end
      end
  end.

(** ** XML, lines 55-71 *)

Definition tag_of (e : xml) : string := let 'Element t _ _ := e in t.
Definition text_of (e : xml) : option string := let 'Element _ t _ := e in t.
Definition children_of (e : xml) : list xml := let 'Element _ _ c := e in c.

(** [e.find(tag)] and [e.findall(tag)] for a plain tag name: the direct
    children with that tag. *)
Definition findall (tag : string) (e : xml) : list xml :=
  filter (fun c => (tag_of c =? tag)%string) (children_of e).

Definition find (tag : string) (e : xml) : option xml :=
  hd_error (findall tag e).

(** [int(float(bndbox.find(tag).text))] *)
Definition xml_coord (bndbox : xml) (tag : string) : result Z :=
  match find tag bndbox with
  | None => Raise AttributeError
  | Some e =>
      match text_of e with
      | None => Raise TypeError
      | Some s => v <- float_of_string s ;; int_of_float v
      end
  end.

(** Lines 58-71, for one [obj]. *)
Definition xml_object (obj : xml) : result (option box) :=
  let label := match find "name" obj with
               | Some n => match text_of n with
                           | Some s => JStr s
                           | None => JNull
                           end
               | None => JStr "No Label"
               end in
  match find "bndbox" obj with
  | Some bndbox =>
      xmin <- xml_coord bndbox "xmin" ;;
      ymin <- xml_coord bndbox "ymin" ;;
      xmax <- xml_coord bndbox "xmax" ;;
      ymax <- xml_coord bndbox "ymax" ;;
      Ok (Some (Box label xmin ymin xmax ymax))
  | None => Ok None
  end.

Definition parse_xml (w : world) (annotation_path : string) : run :=
  match ET_parse w annotation_path with
  | Raise e => Run [] [] (Some e)
  | Ok root =>
      let '(acc, e) := for_each xml_object (findall "object" root) [] in
      Run acc [] e
  end.

(** ** YOLO text, lines 74-100 *)

(** [float * int]: the int is converted first. *)
Definition mul_float_int (x : float) (n : Z) : result float :=
  y <- float_of_int n ;; Ok (x * y)%float.

(** [names[i]], negative indices counting from the end. *)
Definition list_index (names : list string) (i : Z) : result string :=
  let j := if i <? 0 then Z.of_nat (List.length names) + i else i in
  if j <? 0 then Raise IndexError
  else match nth_error names (Z.to_nat j) with
       | Some s => Ok s
       | None => Raise IndexError
       end.

Definition names_truthy (class_names : option (list string)) : bool :=
  match class_names with
  | Some (_ :: _) => true
  | _ => false
  end.

(** Line 93. *)
Definition yolo_label (class_names : option (list string)) (class_id : Z)
  : result string :=
  match class_names with
  | Some ((_ :: _) as names) =>
      if class_id <? Z.of_nat (List.length names)
      then list_index names class_id
      else Ok ("Class " ++ str_of_int class_id)%string
  | _ => Ok ("Class " ++ str_of_int class_id)%string
  end.

(** Lines 78-100, for one [line]. *)
Definition yolo_line (image_width image_height : Z)
           (class_names : option (list string)) (line : string)
  : result (option box) :=
  match split (strip line) with
  | [p0; p1; p2; p3; p4] =>
      class_id <- int_of_string p0 ;;
      x_center_norm <- float_of_string p1 ;;
      y_center_norm <- float_of_string p2 ;;
      width_norm <- float_of_string p3 ;;
      height_norm <- float_of_string p4 ;;
      x_center <- mul_float_int x_center_norm image_width ;;
      y_center <- mul_float_int y_center_norm image_height ;;
      bbox_width <- mul_float_int width_norm image_width ;;
      bbox_height <- mul_float_int height_norm image_height ;;
      xmin <- int_of_float (x_center - bbox_width / 2)%float ;;
      ymin <- int_of_float (y_center - bbox_height / 2)%float ;;
      xmax <- int_of_float (x_center + bbox_width / 2)%float ;;
      ymax <- int_of_float (y_center + bbox_height / 2)%float ;;
      lbl <- yolo_label class_names class_id ;;
      Ok (Some (Box (JStr lbl) xmin ymin xmax ymax))
  | _ => Ok None
  end.

Definition parse_yolo (w : world) (annotation_path : string)
           (image_width image_height : Z)
           (class_names : option (list string)) : run :=
  let warn := if names_truthy class_names then []
              else [WarnNoClassNames annotation_path] in
  match read_text w annotation_path with
  | Raise e => Run [] warn (Some e)
  | Ok text =>
      let '(acc, e) :=
        for_each (yolo_line image_width image_height class_names)
                 (file_lines text) [] in
      Run acc warn e
  end.

(** ** The [try] block and its [except] clauses *)

Definition try_block (w : world) (annotation_path : string)
           (image_width image_height : Z)
           (class_names : option (list string)) : run :=
  let ext := file_extension annotation_path in
  match format_of ext with
  | Json => parse_json w annotation_path
  | Xml => parse_xml w annotation_path
  | Yolo => parse_yolo w annotation_path image_width image_height class_names
  | Unsupported => Run [] [UnsupportedFormat ext annotation_path] None
  end.

(** Lines 104-109: which clause takes an exception. *)
Definition except_clause (annotation_path : string) (e : exn) : log_line :=
  match e with
  | FileNotFoundError => NotFound annotation_path
  | JSONDecodeError | ParseError | ValueError =>
      ErrorParsing annotation_path e
  | _ => Unexpected annotation_path e
  end.

Definition parse_annotations (w : world) (annotation_path : string)
           (image_width image_height : Z)
           (class_names : option (list string)) : run :=
  let r := try_block w annotation_path image_width image_height class_names in
  match raised r with
  | Some e =>
      Run (annotations r)
          (printed r ++ [except_clause annotation_path e])
          None
  | None => r
  end.

End Normalizer.
Import Normalizer.

(* ================================================================== *)
(** * The numbers of the viewer *)

(** The operations the viewer applies to its coordinates.  [of_int] is the
    conversion an [int] operand undergoes next to a float one; [lit_1_1] is
    the literal [1.1]; [trunc] is [int(x)]. *)
Class Number (F : Type) : Type := {
  of_int : Z -> F;
  lit_1_1 : F;
  nadd : F -> F -> F;
  nsub : F -> F -> F;
  nmul : F -> F -> F;
  ndiv : F -> F -> F;
  nabs : F -> F;
  nltb : F -> F -> bool;
  nzero : F -> bool;
  trunc : F -> result Z
}.

(** binary64: what CPython computes. *)
#[global] Instance binary64 : Number float := {
  of_int := fun n => SF2Prim (binary_normalize prec emax n 0 false);
  lit_1_1 := 1.1%float;
  nadd := PrimFloat.add;
  nsub := PrimFloat.sub;
  nmul := PrimFloat.mul;
  ndiv := PrimFloat.div;
  nabs := PrimFloat.abs;
  nltb := PrimFloat.ltb;
  nzero := fun x => PrimFloat.eqb x 0%float;
  trunc := int_of_float
}.

(** The rationals: the same formulas without rounding. *)
#[global] Instance exact : Number Q := {
  of_int := inject_Z;
  lit_1_1 := 11 # 10;
  nadd := Qplus;
  nsub := Qminus;
  nmul := Qmult;
  ndiv := Qdiv;
  nabs := Qabs;
  nltb := fun x y => negb (Qle_bool y x);
  nzero := fun x => Qeq_bool x 0;
  trunc := fun x => Ok (Z.quot (Qnum x) (Zpos (Qden x)))
}.

(* ================================================================== *)
(** * [draw_bounding_boxes] and [BoundingBoxViewerApp] *)

Module Viewer.
Section WithNumbers.

Context {F : Type} {NumF : Number F}.

(** ** Images *)

Inductive optval : Type :=
| OStr (s : string)
| OInt (n : Z).

(** The calls made on an [ImageDraw.Draw]; they are recorded in order,
    not turned into pixels. *)
Inductive draw_op : Type :=
| Rectangle (xy : list Z) (outline : string) (width : Z)
| Text (xy : Z * Z) (text : string) (fill : string)
| Line (xy : list F) (fill : optval) (width : optval).

(** A PIL image: the file its pixels were decoded from, its size, and
    what has been drawn over it since. *)
Record image : Type := Image {
  pixels_of : string;
  size : Z * Z;
  painted : list draw_op
}.

Definition paint (im : image) (op : draw_op) : image :=
  Image (pixels_of im) (size im) (painted im ++ [op]).

(** The files: the annotation readers, [os.path.exists], and
    [Image.open] (which gives the size, or fails). *)
Record disk : Type := Disk {
  files : world;
  path_exists : string -> bool;
  Image_open : string -> result (Z * Z)
}.

(** Lines 124-137, for one annotation. *)
Definition draw_box (annotation : box) : result (list draw_op) :=
  match label annotation with
  | JStr lbl =>
      let box_color :=
        if contains "silver marking" (lower lbl) then "yellow"
        else if contains "balancing weight" (lower lbl) then "cyan"
        else "red" in
      let ty := if 0 <? y_min annotation - 20
                then y_min annotation - 20 else y_min annotation + 5 in
      Ok [ Rectangle [x_min annotation; y_min annotation;
                      x_max annotation; y_max annotation] box_color 3;
           Text (x_min annotation, ty) lbl box_color ]
  | _ => Raise AttributeError      (* label.lower() *)
  end.

Fixpoint draw_boxes (annotations : list box) (im : image) : result image :=
  match annotations with
  | [] => Ok im
  | a :: rest =>
      match draw_box a with
      | Ok ops => draw_boxes rest (Image (pixels_of im) (size im)
                                         (painted im ++ ops))
      | Raise e => Raise e
      end
  end.

(** [draw_bounding_boxes(image_path, annotations)], on a copy. *)
Definition draw_bounding_boxes (d : disk) (image_path : string)
           (annotations : list box) : option image :=
  match Image_open d image_path with
  | Raise _ => None
  | Ok sz =>
      match draw_boxes annotations (Image image_path sz []) with
      | Ok im => Some im
      | Raise _ => None
      end
  end.

(** ** The state of the application *)

(** One entry of [drawings_on_canvas]: [(coords, dtype, options)]. *)
Definition drawing : Type := list F * string * list (string * optval).

Record app : Type := App {
  original_image_pil : option image;
  zoom_level : F;
  image_x_offset : F;
  image_y_offset : F;
  drawings_on_canvas : list drawing;
  drawing_active : bool;
  (* None until [start_draw] has set the attribute *)
  current_drawing_coords_unscaled : option (list F);
  (* the canvas widget: its size and the canvas coordinate of its
     top-left corner, [canvasx(0)] and [canvasy(0)] *)
  canvas_size : Z * Z;
  canvas_origin : F * F;
  (* the files written by [save_current_image] *)
  saved : list (string * image)
}.

Definition initial (canvas_size : Z * Z) : app :=
  App None (of_int 1) (of_int 0) (of_int 0) [] false None
      canvas_size (of_int 0, of_int 0) [].

Definition set_image (im : image) (a : app) : app :=
  App (Some im) (zoom_level a) (image_x_offset a) (image_y_offset a)
      (drawings_on_canvas a) (drawing_active a)
      (current_drawing_coords_unscaled a) (canvas_size a)
      (canvas_origin a) (saved a).

Definition set_zoom (z : F) (a : app) : app :=
  App (original_image_pil a) z (image_x_offset a) (image_y_offset a)
      (drawings_on_canvas a) (drawing_active a)
      (current_drawing_coords_unscaled a) (canvas_size a)
      (canvas_origin a) (saved a).

Definition set_offsets (x y : F) (a : app) : app :=
  App (original_image_pil a) (zoom_level a) x y
      (drawings_on_canvas a) (drawing_active a)
      (current_drawing_coords_unscaled a) (canvas_size a)
      (canvas_origin a) (saved a).

Definition set_drawings (ds : list drawing) (a : app) : app :=
  App (original_image_pil a) (zoom_level a) (image_x_offset a)
      (image_y_offset a) ds (drawing_active a)
      (current_drawing_coords_unscaled a) (canvas_size a)
      (canvas_origin a) (saved a).

Definition set_active (b : bool) (a : app) : app :=
  App (original_image_pil a) (zoom_level a) (image_x_offset a)
      (image_y_offset a) (drawings_on_canvas a) b
      (current_drawing_coords_unscaled a) (canvas_size a)
      (canvas_origin a) (saved a).

Definition set_current (c : list F) (a : app) : app :=
  App (original_image_pil a) (zoom_level a) (image_x_offset a)
      (image_y_offset a) (drawings_on_canvas a) (drawing_active a)
      (Some c) (canvas_size a) (canvas_origin a) (saved a).

Definition set_canvas (sz : Z * Z) (origin : F * F) (a : app) : app :=
  App (original_image_pil a) (zoom_level a) (image_x_offset a)
      (image_y_offset a) (drawings_on_canvas a) (drawing_active a)
      (current_drawing_coords_unscaled a) sz origin (saved a).

Definition add_saved (path : string) (im : image) (a : app) : app :=
  App (original_image_pil a) (zoom_level a) (image_x_offset a)
      (image_y_offset a) (drawings_on_canvas a) (drawing_active a)
      (current_drawing_coords_unscaled a) (canvas_size a)
      (canvas_origin a) ((path, im) :: saved a).

(** A method runs on the state and either returns or raises; the
    assignments made before an exception stay. *)
Definition method (A : Type) : Type := app -> app * result A.

Definition ret {A} (x : A) : method A := fun a => (a, Ok x).
Definition throw {A} (e : exn) : method A := fun a => (a, Raise e).
Definition lift {A} (r : result A) : method A := fun a => (a, r).
Definition read {A} (f : app -> A) : method A := fun a => (a, Ok (f a)).
Definition assign (f : app -> app) : method unit := fun a => (f a, Ok tt).

Definition mbind {A B} (m : method A) (k : A -> method B) : method B :=
  fun a => match m a with
           | (a', Ok x) => k x a'
           | (a', Raise e) => (a', Raise e)
           end.

Declare Scope method_scope.
Notation "x <- c ;; k" := (mbind c (fun x => k))
  (at level 61, c at next level, right associativity) : method_scope.
Notation "c ;;; k" := (mbind c (fun _ => k))
  (at level 61, right associativity) : method_scope.
Local Open Scope method_scope.

(** ** Placement: [redraw_canvas] and [fit_image_to_canvas] *)

(** [max(0, v)] and [min(u, v)] as the builtins pick their result. *)
Definition max0 (v : F) : F := if nltb (of_int 0) v then v else of_int 0.
Definition pymin (u v : F) : F := if nltb v u then v else u.

(** [x / y] raises on a zero divisor. *)
Definition truediv (x y : F) : result F :=
  if nzero y then Raise ZeroDivisionError else Ok (ndiv x y).

(** Lines 328-355: the sizes, then the two offsets.  The canvas calls
    that follow do not come back into the state. *)
Definition redraw_canvas : method unit :=
  im <- read original_image_pil ;;
  match im with
  | None => ret tt
  | Some img =>
      sz <- read canvas_size ;;
      z <- read zoom_level ;;
      disp_w <- lift (trunc (nmul (of_int (fst (size img))) z)) ;;
      disp_h <- lift (trunc (nmul (of_int (snd (size img))) z)) ;;
      assign (set_offsets
                (max0 (ndiv (of_int (fst sz - disp_w)) (of_int 2)))
                (max0 (ndiv (of_int (snd sz - disp_h)) (of_int 2))))
  end.

(** Lines 358-365. *)
Definition fit_image_to_canvas : method unit :=
  im <- read original_image_pil ;;
  match im with
  | None => ret tt
  | Some img =>
      sz <- read canvas_size ;;
      let '(canvas_w, canvas_h) := sz in
      let '(img_w, img_h) := size img in
      if (canvas_w <=? 1) || (canvas_h <=? 1) || (img_w <=? 0) || (img_h <=? 0)
      then ret tt
      else
        assign (set_zoom (pymin (ndiv (of_int canvas_w) (of_int img_w))
                                (ndiv (of_int canvas_h) (of_int img_h)))) ;;;
        redraw_canvas
  end.

(** Lines 322-325; an image object is always true. *)
Definition display_image_on_canvas (pil_image : image) : method unit :=
  assign (set_image pil_image) ;;; fit_image_to_canvas.

(** ** Zoom: [on_mouse_wheel_zoom] *)

(** What the handler reads of the event: [delta], and [num] when it is a
    number (a wheel event on Windows or macOS has [num == '??']). *)
Record wheel : Type := Wheel {
  delta : Z;
  num : option Z
}.

Definition zoom_factor (e : wheel) : F :=
  if (0 <? delta e) || match num e with Some n => n =? 4 | None => false end
  then lit_1_1
  else ndiv (of_int 1) lit_1_1.

(** Lines 404-417. *)
Definition on_mouse_wheel_zoom (e : wheel) : method unit :=
  im <- read original_image_pil ;;
  match im with
  | None => ret tt
  | Some _ =>
      z <- read zoom_level ;;
      assign (set_zoom (nmul z (zoom_factor e))) ;;;
      redraw_canvas
  end.

(** ** The two transforms *)

Definition canvasx (a : app) (x : Z) : F := nadd (of_int x) (fst (canvas_origin a)).
Definition canvasy (a : app) (y : Z) : F := nadd (of_int y) (snd (canvas_origin a)).

(** Lines 419-423, on canvas coordinates. *)
Definition to_image_space (zoom off_x off_y : F) (cx cy : F) : result (F * F) :=
  match truediv (nsub cx off_x) zoom with
  | Raise e => Raise e
  | Ok img_x =>
      match truediv (nsub cy off_y) zoom with
      | Raise e => Raise e
      | Ok img_y => Ok (img_x, img_y)
      end
  end.

Definition _canvas_to_image_coords (canvas_x canvas_y : Z) : method (F * F) :=
  fun a => (a, to_image_space (zoom_level a) (image_x_offset a) (image_y_offset a)
                              (canvasx a canvas_x) (canvasy a canvas_y)).

(** Lines 352-353 (and 439-440): a flat list of image coordinates
    scaled by the zoom level, then shifted by the x offset at even
    positions and the y offset at odd ones. *)
Fixpoint offset_from (i : nat) (off_x off_y : F) (scaled : list F) : list F :=
  match scaled with
  | [] => []
  | c :: rest =>
      nadd c (if Nat.even i then off_x else off_y)
        :: offset_from (S i) off_x off_y rest
  end.

Definition to_screen_space (zoom off_x off_y : F) (coords : list F) : list F :=
  let scaled_coords := map (fun c => nmul c zoom) coords in
  offset_from 0 off_x off_y scaled_coords.

(** ** Freehand drawing *)

(** Lines 425-429. *)
Definition start_draw (x y : Z) : method unit :=
  im <- read original_image_pil ;;
  match im with
  | None => ret tt
  | Some _ =>
      assign (set_active true) ;;;
      p <- _canvas_to_image_coords x y ;;
      assign (set_current [fst p; snd p])
  end.

Definition current_coords : method (list F) :=
  c <- read current_drawing_coords_unscaled ;;
  match c with
  | Some l => ret l
  | None => throw AttributeError
  end.

(** Lines 431-442. *)
Definition do_draw (x y : Z) : method unit :=
  active <- read drawing_active ;;
  if active then
    p <- _canvas_to_image_coords x y ;;
    l <- current_coords ;;
    assign (set_current (l ++ [fst p; snd p])) ;;;
    redraw_canvas
  else ret tt.

(** Lines 444-451. *)
Definition end_draw : method unit :=
  active <- read drawing_active ;;
  if active then
    l <- current_coords ;;
    ds <- read drawings_on_canvas ;;
    assign (set_drawings
              (ds ++ [(l, "line", [("fill", OStr "blue"); ("width", OInt 2)])])) ;;;
    assign (set_active false) ;;;
    redraw_canvas
  else ret tt.

(** ** Erasing *)

(** Lines 463-466: [any(... for i in range(0, len(coords), 2))] over the
    flat list.  The second test reads [coords[i+1]] only when the first
    holds, and raises when there is no such element. *)
Fixpoint near_any (coords : list F) (erase_x erase_y tolerance : F) : result bool :=
  match coords with
  | [] => Ok false
  | px :: rest =>
      if nltb (nabs (nsub px erase_x)) tolerance then
        match rest with
        | [] => Raise IndexError
        | py :: rest' =>
            if nltb (nabs (nsub py erase_y)) tolerance then Ok true
            else near_any rest' erase_x erase_y tolerance
        end
      else
        match rest with
        | [] => Ok false
        | _ :: rest' => near_any rest' erase_x erase_y tolerance
        end
  end.

(** Lines 461-467: the drawings none of whose points is near. *)
Fixpoint keep_far (ds : list drawing) (erase_x erase_y tolerance : F)
  : result (list drawing) :=
  match ds with
  | [] => Ok []
  | d :: rest =>
      match near_any (fst (fst d)) erase_x erase_y tolerance with
      | Raise e => Raise e
      | Ok near =>
          match keep_far rest erase_x erase_y tolerance with
          | Raise e => Raise e
          | Ok kept => Ok (if near then kept else d :: kept)
          end
      end
  end.

(** Lines 453-469. *)
Definition do_erase (x y : Z) : method unit :=
  im <- read original_image_pil ;;
  match im with
  | None => ret tt
  | Some _ =>
      p <- _canvas_to_image_coords x y ;;
      z <- read zoom_level ;;
      tolerance <- lift (truediv (of_int 5) z) ;;
      ds <- read drawings_on_canvas ;;
      kept <- lift (keep_far ds (fst p) (snd p) tolerance) ;;
      assign (set_drawings kept) ;;;
      if (List.length kept <? List.length ds)%nat then redraw_canvas else ret tt
  end.

(** ** Loading *)

(** Lines 310-320: a chosen path empties the drawings. *)
Definition browse (chosen : string) : method unit :=
  if (chosen =? "")%string then ret tt else assign (set_drawings []).

(** Lines 10-19. *)
Definition load_yolo_classes (d : disk) (classes_file_path : string) : list string :=
  if negb (classes_file_path =? "")%string && path_exists d classes_file_path then
    match read_text (files d) classes_file_path with
    | Ok text =>
        filter (fun l => negb (l =? "")%string) (map strip (file_lines text))
    | Raise _ => []
    end
  else [].

(** Swallow what a [try ... except Exception] around [m] catches. *)
Definition caught (m : method unit) : method unit :=
  fun a => (fst (m a), Ok tt).

(** The part the two loaders share (lines 478-488 and 534-544): size,
    parse, draw, and on success empty the drawings and show. *)
Definition load_and_show (d : disk) (img_path label_path : string)
           (class_names : option (list string)) : method unit :=
  caught (
    sz <- lift (Image_open d img_path) ;;
    let r := parse_annotations (files d) label_path (fst sz) (snd sz) class_names in
    match draw_bounding_boxes d img_path (annotations r) with
    | Some annotated_image_pil =>
        assign (set_drawings []) ;;;
        display_image_on_canvas annotated_image_pil
    | None => ret tt
    end).

(** Lines 471-490. *)
Definition process_single_image (d : disk) (image_p label_p classes_p : string)
  : method unit :=
  if (image_p =? "")%string || negb (path_exists d image_p)
     || (label_p =? "")%string || negb (path_exists d label_p)
  then ret tt
  else
    load_and_show d image_p label_p
      (if (classes_p =? "")%string then None
       else Some (load_yolo_classes d classes_p)).

(** Lines 528-546, for the entry of [image_files_for_auto] at the
    current index. *)
Definition show_current_automated_image (d : disk)
           (entry : string * string * list string) : method unit :=
  let '(img_path, label_path, class_names) := entry in
  load_and_show d img_path label_path (Some class_names).

(** ** Saving *)

Fixpoint options_get (k : string) (dflt : optval)
         (options : list (string * optval)) : optval :=
  match options with
  | [] => dflt
  | (k', v) :: rest => if (k' =? k)%string then v else options_get k dflt rest
  end.

(** Lines 573-575, for one drawing. *)
Definition burn (im : image) (d : drawing) : image :=
  let '(coords, dtype, options) := d in
  if (dtype =? "line")%string
  then paint im (Line coords (options_get "fill" (OStr "blue") options)
                             (options_get "width" (OInt 2) options))
  else im.

(** Lines 558-580; [file_path] is what the save dialog returned, empty
    when it was cancelled. *)
Definition save_current_image (file_path : string) : method unit :=
  im <- read original_image_pil ;;
  match im with
  | None => ret tt
  | Some img =>
      if (file_path =? "")%string then ret tt
      else
        ds <- read drawings_on_canvas ;;
        let image_to_save := fold_left burn ds img in
        assign (add_saved file_path image_to_save)
  end.

(** ** The event loop *)

Inductive event : Type :=
| ProcessSingleImage (image_p label_p classes_p : string)
| ShowAutomatedImage (entry : string * string * list string)
| Browse (chosen : string)
| Configure (canvas_size : Z * Z)        (* resize, then the delayed fit *)
| View (canvas_origin : F * F)           (* pan and scrollbars move the view *)
| MouseWheel (e : wheel)
| StartDraw (x y : Z)
| DoDraw (x y : Z)
| EndDraw
| DoErase (x y : Z)
| Save (file_path : string).

Definition handler (d : disk) (ev : event) : method unit :=
  match ev with
  | ProcessSingleImage i l c => process_single_image d i l c
  | ShowAutomatedImage entry => show_current_automated_image d entry
  | Browse chosen => browse chosen
  | Configure sz =>
      assign (fun a => set_canvas sz (canvas_origin a) a) ;;; fit_image_to_canvas
  | View origin => assign (fun a => set_canvas (canvas_size a) origin a)
  | MouseWheel e => on_mouse_wheel_zoom e
  | StartDraw x y => start_draw x y
  | DoDraw x y => do_draw x y
  | EndDraw => end_draw
  | DoErase x y => do_erase x y
  | Save file_path => save_current_image file_path
  end.

(** Tk reports an exception that leaves a callback and goes on with the
    state as the callback left it. *)
Definition step (d : disk) (a : app) (ev : event) : app :=
  fst (handler d ev a).

Definition run_events (d : disk) (evs : list event) (a : app) : app :=
  fold_left (step d) evs a.

End WithNumbers.
End Viewer.

(* ================================================================== *)
(** * Folders: [os.path] and [sorted] *)

Module PyOs.

(** [s.endswith(suffix)]. *)
Definition endswith (s suffix : string) : bool :=
  is_prefix (rev (list_ascii_of_string suffix)) (rev (list_ascii_of_string s)).

(** [posixpath.join(a, b)]. *)
Definition join (a b : string) : string :=
  if is_prefix ["/"%char] (list_ascii_of_string b) then b
  else if (a =? "")%string || endswith a "/" then (a ++ b)%string
  else (a ++ "/" ++ b)%string.

(** [posixpath.basename]. *)
Definition basename (p : string) : string :=
  string_of_list_ascii (snd (split_last_sep (list_ascii_of_string p))).

(** [sorted] on strings: by code point, the shorter of two strings
    first when it is a prefix of the other. *)
Fixpoint insert_sorted (s : string) (l : list string) : list string :=
  match l with
  | [] => [s]
  | t :: r => if String.leb s t then s :: l else t :: insert_sorted s r
  end.

Definition sorted (l : list string) : list string :=
  fold_right insert_sorted [] l.

(** [int(s)] with the interpreter's limit on the length of a decimal
    string: more than 4300 digits are a [ValueError]. *)
Definition int_of_text (s : string) : result Z :=
  if (4300 <? List.length (filter is_digit (list_ascii_of_string s)))%nat
  then Raise ValueError
  else int_of_string s.

(** [l[i]] for a list. *)
Definition subscript {A} (l : list A) (i : Z) : result A :=
  let j := if i <? 0 then Z.of_nat (List.length l) + i else i in
  if j <? 0 then Raise IndexError
  else match nth_error l (Z.to_nat j) with
       | Some x => Ok x
       | None => Raise IndexError
       end.

End PyOs.

(* ================================================================== *)
(** * Navigation: the automated mode of [BoundingBoxViewerApp] *)

Module Navigation.
Import PyOs Viewer.
Section WithNumbers.

Context {F : Type} {NumF : Number F}.

(** An entry of [image_files_for_auto]:
    [(img_path, label_path, class_names)]. *)
Definition pair : Type := string * string * list string.

(** The message boxes of the navigation. *)
Inductive dialog : Type :=
| SelectValidFolder              (* line 495 *)
| NoPairsFound                   (* line 520 *)
| InvalidNumber (count : nat)    (* line 297 *)
| InvalidInput.                  (* line 299 *)

(** The directories: [os.path.isdir] and [os.listdir]. *)
Record tree : Type := Tree {
  isdir : string -> bool;
  listdir : string -> result (list string)
}.

Record browser : Type := Browser {
  viewer : app (F:=F);
  image_files_for_auto : list pair;
  current_image_index : Z;
  nav_entry_var : string;
  (* the message boxes shown so far, the latest first *)
  shown : list dialog
}.

Definition start (canvas_size : Z * Z) : browser :=
  Browser (initial canvas_size) [] 0 "" [].

Definition set_viewer (v : app (F:=F)) (b : browser) : browser :=
  Browser v (image_files_for_auto b) (current_image_index b)
          (nav_entry_var b) (shown b).

Definition set_files (l : list pair) (b : browser) : browser :=
  Browser (viewer b) l (current_image_index b) (nav_entry_var b) (shown b).

Definition set_index (i : Z) (b : browser) : browser :=
  Browser (viewer b) (image_files_for_auto b) i (nav_entry_var b) (shown b).

Definition set_entry (s : string) (b : browser) : browser :=
  Browser (viewer b) (image_files_for_auto b) (current_image_index b) s (shown b).

Definition showerror (m : dialog) (b : browser) : browser :=
  Browser (viewer b) (image_files_for_auto b) (current_image_index b)
          (nav_entry_var b) (m :: shown b).

Definition action : Type := browser -> browser * result unit.

(** Lines 528-546.  The [try] block swallows what the load raises; the
    entry box is set when the display has returned. *)
Definition show_current_automated_image (d : disk) : action :=
  fun b =>
  match image_files_for_auto b with
  | [] => (b, Ok tt)
  | _ :: _ =>
      match subscript (image_files_for_auto b) (current_image_index b) with
      | Raise e => (b, Raise e)
      | Ok (img_path, label_path, class_names) =>
          match Image_open d img_path with
          | Raise _ => (b, Ok tt)
          | Ok sz =>
              let r := parse_annotations (files d) label_path (fst sz) (snd sz)
                                         (Some class_names) in
              match draw_bounding_boxes d img_path (annotations r) with
              | None => (b, Ok tt)
              | Some annotated_image_pil =>
                  let '(v, displayed) :=
                    mbind (assign (set_drawings []))
                          (fun _ => display_image_on_canvas annotated_image_pil)
                          (viewer b) in
                  match displayed with
                  | Ok _ =>
                      (set_entry (str_of_int (current_image_index b + 1))
                                 (set_viewer v b), Ok tt)
                  | Raise _ => (set_viewer v b, Ok tt)
                  end
              end
          end
      end
  end.

(** Lines 288-301: the [try] body, the [except ValueError] clause, the
    [finally] clause. *)
Definition go_to_image (d : disk) : action :=
  fun b =>
  match image_files_for_auto b with
  | [] => (b, Ok tt)
  | _ :: _ =>
      let count := List.length (image_files_for_auto b) in
      let '(b1, r1) :=
        match int_of_text (nav_entry_var b) with
        | Raise e => (b, Raise e)
        | Ok n =>
            let target_index := n - 1 in
            if (0 <=? target_index) && (target_index <? Z.of_nat count) then
              if negb (current_image_index b =? target_index)
              then show_current_automated_image d (set_index target_index b)
              else (b, Ok tt)
            else (showerror (InvalidNumber count) b, Ok tt)
        end in
      let '(b2, r2) :=
        match r1 with
        | Raise ValueError => (showerror InvalidInput b1, Ok tt)
        | _ => (b1, r1)
        end in
      (set_entry (str_of_int (current_image_index b2 + 1)) b2, r2)
  end.

(** Lines 548-551. *)
Definition show_next_image (d : disk) : action :=
  fun b =>
  if current_image_index b <? Z.of_nat (List.length (image_files_for_auto b)) - 1
  then show_current_automated_image d (set_index (current_image_index b + 1) b)
  else (b, Ok tt).

(** Lines 553-556. *)
Definition show_previous_image (d : disk) : action :=
  fun b =>
  if 0 <? current_image_index b
  then show_current_automated_image d (set_index (current_image_index b - 1) b)
  else (b, Ok tt).

(** Line 506: the names that end like an image file. *)
Definition is_image_name (f : string) : bool :=
  existsb (endswith (lower f)) [".png"; ".jpg"; ".jpeg"].

(** Lines 512-516: the first of the three label files that exists. *)
Definition label_for (d : disk) (labels_dir base_name : string) : option string :=
  List.find (path_exists d)
            (map (fun ext => join labels_dir (base_name ++ ext)%string)
                 [".json"; ".xml"; ".txt"]).

(** Lines 509-516. *)
Definition pair_up (d : disk) (labels_dir : string) (class_names : list string)
           (image_paths : list string) : list pair :=
  flat_map (fun img_path =>
              let base_name := fst (splitext (basename img_path)) in
              match label_for d labels_dir base_name with
              | Some label_path => [(img_path, label_path, class_names)]
              | None => []
              end)
           image_paths.

(** Lines 492-526; [root_folder] is the text of the folder entry. *)
Definition start_automated_processing (d : disk) (t : tree) (root_folder : string)
  : action :=
  fun b =>
  if (root_folder =? "")%string || negb (isdir t root_folder)
  then (showerror SelectValidFolder b, Ok tt)
  else
    let images_dir := join root_folder "images" in
    let labels_dir := join root_folder "labels" in
    let classes_file :=
      List.find (path_exists d)
                (map (join root_folder) ["classes.txt"; "classes.names"]) in
    let '(images_dir, labels_dir) :=
      if negb (isdir t images_dir) || negb (isdir t labels_dir)
      then (root_folder, root_folder) else (images_dir, labels_dir) in
    match listdir t images_dir with
    | Raise e => (b, Raise e)
    | Ok names =>
        let image_paths :=
          sorted (map (join images_dir) (filter is_image_name names)) in
        let class_names :=
          match classes_file with
          | Some p => load_yolo_classes d p
          | None => []          (* [load_yolo_classes(None)] *)
          end in
        let found_pairs := pair_up d labels_dir class_names image_paths in
        let b := set_files found_pairs b in
        match found_pairs with
        | [] => (showerror NoPairsFound b, Ok tt)
        | _ :: _ => show_current_automated_image d (set_index 0 b)
        end
    end.

(** ** The commands of the user *)

Inductive command : Type :=
| Canvas (ev : event (F:=F))           (* an event of the viewer *)
| EditEntry (text : string)            (* typing into the entry box *)
| GoToImage
| ShowNextImage
| ShowPreviousImage
| StartAutomatedProcessing (root_folder : string).

Definition perform (d : disk) (t : tree) (c : command) : action :=
  match c with
  | Canvas ev => fun b => (set_viewer (step d (viewer b) ev) b, snd (handler d ev (viewer b)))
  | EditEntry text => fun b => (set_entry text b, Ok tt)
  | GoToImage => go_to_image d
  | ShowNextImage => show_next_image d
  | ShowPreviousImage => show_previous_image d
  | StartAutomatedProcessing root_folder => start_automated_processing d t root_folder
  end.

Definition after (d : disk) (t : tree) (b : browser) (c : command) : browser :=
  fst (perform d t c b).

Definition run_commands (d : disk) (t : tree) (cs : list command) (b : browser)
  : browser :=
  fold_left (after d t) cs b.

End WithNumbers.
End Navigation.

(* ================================================================== *)
(** * Vocabulary of the statements *)

Module Spec.
Import PyObj Viewer.

(** ** Paths *)

Definition no_sep (s : chars) : Prop := forallb (fun c => negb (is_sep c)) s = true.
Definition no_dot (s : chars) : Prop := forallb (fun c => negb (is_dot c)) s = true.
Definition starts_with_dot (s : chars) : bool :=
  match s with c :: _ => is_dot c | [] => false end.

(** An extension is a dot followed by dot-free characters. *)
Definition is_ext (e : chars) : Prop :=
  exists c t, e = c :: t /\ is_dot c = true /\ no_dot t.

(** The reader [parse_annotations] calls on a path, and what it raised. *)
Definition reader_raises (w : world) (path : string) (e : exn) : Prop :=
  match format_of (file_extension path) with
  | Json => json_load w path = Raise e
  | Xml => ET_parse w path = Raise e
  | Yolo => read_text w path = Raise e
  | Unsupported => False
  end.

(** The document of a custom-JSON file with the given entries. *)
Definition custom_json (entries : list json) : json :=
  JList [JDict [("annotations", JList entries)]].

(** An entry with a label and the four coordinate fields. *)
Definition entry (lbl : string) (x y width height : json) : json :=
  JDict [("label", JStr lbl);
         ("coordinates",
          JDict [("x", x); ("y", y); ("width", width); ("height", height)])].

(** Example 1 of the specification. *)
Definition example_1 : json :=
  custom_json [entry "Weight" (JInt 10) (JInt 20) (JInt 30) (JInt 40)].

(** An entry whose [coordinates] is a dict in which one of the four
    fields is absent (or null). *)
Definition lacks_coordinate (anno : json) : Prop :=
  exists d c,
    anno = JDict d /\ dict_get "coordinates" d = JDict c /\
    (dict_get "x" c = JNull \/ dict_get "y" c = JNull \/
     dict_get "width" c = JNull \/ dict_get "height" c = JNull).

(** The files of a folder that holds one YOLO label file. *)
Definition one_text_file (text : string) : world :=
  World (fun _ => Raise FileNotFoundError) (fun _ => Raise FileNotFoundError)
        (fun _ => Ok text).

(** ** Strokes *)

Section StrokeVocabulary.
Context {F : Type} {NumF : Number F}.

(** The points of a flat coordinate list, two numbers at a time. *)
Fixpoint points (coords : list F) : list (F * F) :=
  match coords with
  | px :: py :: rest => (px, py) :: points rest
  | _ => []
  end.

(** Both axis distances to the pointer are below the tolerance. *)
Definition point_near (erase_x erase_y tolerance : F) (p : F * F) : bool :=
  nltb (nabs (nsub (fst p) erase_x)) tolerance
  && nltb (nabs (nsub (snd p) erase_y)) tolerance.

(** A stroke is hit when one of its points is near. *)
Definition stroke_hit (erase_x erase_y tolerance : F) (d : drawing) : bool :=
  existsb (point_near erase_x erase_y tolerance) (points (fst (fst d))).

Definition even_coords (d : drawing (F:=F)) : Prop :=
  Nat.even (List.length (fst (fst d))) = true.

(** All the stroke points the application holds. *)
Definition stored_points (a : app) : list (F * F) :=
  flat_map (fun d : drawing => points (fst (fst d))) (drawings_on_canvas a).

End StrokeVocabulary.

(** A folder with one 400x300 image and an empty YOLO label file. *)
Definition plain_disk : disk :=
  Disk (World (fun _ => Raise FileNotFoundError) (fun _ => Raise FileNotFoundError)
              (fun _ => Ok ""))
       (fun _ => true) (fun _ => Ok (400, 300)).

(** ** Zoom and the round trip *)

(** The wheel turned up and down, as Windows reports it ([delta] is
    +-120, [num] is not a number) and as X11 does (buttons 4 and 5). *)
Definition wheel_up : wheel := Wheel 120 None.
Definition wheel_down : wheel := Wheel (-120) None.
Definition button_4 : wheel := Wheel 0 (Some 4).
Definition button_5 : wheel := Wheel 0 (Some 5).

(** The events that take the zoom-in branch of line 407. *)
Definition zooms_in (e : wheel) : Prop := 0 < delta e \/ num e = Some 4.

(** A canvas point sent to image space and back, in binary64: is each
    coordinate within one pixel of where it started? *)
Definition axis_within_pixel (zoom off c : float) : bool :=
  match truediv (nsub c off) zoom with
  | Ok i => PrimFloat.leb (PrimFloat.abs (nadd (nmul i zoom) off - c)) 1
  | Raise _ => false
  end.

Definition within_one_pixel (zoom off_x off_y cx cy : float) : bool :=
  match to_image_space zoom off_x off_y cx cy with
  | Ok (ix, iy) =>
      match to_screen_space zoom off_x off_y [ix; iy] with
      | [sx; sy] => PrimFloat.leb (PrimFloat.abs (sx - cx)) 1
                    && PrimFloat.leb (PrimFloat.abs (sy - cy)) 1
      | _ => false
      end
  | Raise _ => false
  end.

(** The zoom levels within [n] wheel steps of [z], in binary64. *)
Fixpoint ladder_up (n : nat) (z : float) : list float :=
  match n with
  | O => []
  | S k => let z' := nmul z lit_1_1 in z' :: ladder_up k z'
  end.

Fixpoint ladder_down (n : nat) (z : float) : list float :=
  match n with
  | O => []
  | S k => let z' := nmul z (ndiv (of_int 1) lit_1_1) in z' :: ladder_down k z'
  end.

Definition zoom_ladder : list float :=
  1%float :: ladder_up 40 1%float ++ ladder_down 40 1%float.

(** Canvas coordinates of a 2048-pixel wide window, and offsets as
    [redraw_canvas] produces them (halves of integers). *)
Definition pixels : list float :=
  map (fun n => of_int (Z.of_nat n)) (seq 0 2048).

Definition sample_offsets : list float := [0; 0.5; 37; 100; 400.5]%float.

(** A zoom-in followed by a zoom-out, in binary64: is the level back
    within a relative distance of 2^-52? *)
Definition zoom_in_out_close (z : float) : bool :=
  let z' := nmul (nmul z lit_1_1) (ndiv (of_int 1) lit_1_1) in
  PrimFloat.leb (PrimFloat.abs (z' - z)) (z * 0x1p-52).

(** ** Saving *)

Section SaveVocabulary.
Context {F : Type} {NumF : Number F}.

(** A freehand stroke as [end_draw] stores it. *)
Definition is_stroke (d : drawing (F:=F)) : Prop :=
  snd (fst d) = "line" /\ snd d = [("fill", OStr "blue"); ("width", OInt 2)].

(** The line a stroke leaves in a saved image. *)
Definition stroke_line (d : drawing) : draw_op (F:=F) :=
  Line (fst (fst d)) (OStr "blue") (OInt 2).

Definition is_line_op (op : draw_op (F:=F)) : bool :=
  match op with
  | Line _ _ _ => true
  | _ => false
  end.

(** The image is what [draw_bounding_boxes] made of an image file and
    the boxes parsed from a label file. *)
Definition baked_by (d : disk) (img : image (F:=F)) : Prop :=
  exists (img_path label_path : string) (class_names : option (list string))
         (sz : Z * Z),
    Image_open d img_path = Ok sz
    /\ draw_bounding_boxes d img_path
         (annotations (parse_annotations (files d) label_path
                                         (fst sz) (snd sz) class_names))
       = Some img.

(** What holds of the state after any sequence of events. *)
Definition app_invariant (d : disk) (a : app (F:=F)) : Prop :=
  Forall is_stroke (drawings_on_canvas a)
  /\ forall img, original_image_pil a = Some img -> baked_by d img.

(** Two states with the same image and the same drawings. *)
Definition same_content (a a' : app (F:=F)) : Prop :=
  drawings_on_canvas a' = drawings_on_canvas a
  /\ original_image_pil a' = original_image_pil a
  /\ saved a' = saved a.

End SaveVocabulary.

(** A folder with one 400x300 image and the label file of Example 1. *)
Definition example_disk : disk :=
  Disk (World (fun _ => Ok example_1) (fun _ => Raise FileNotFoundError)
              (fun _ => Raise FileNotFoundError))
       (fun _ => true) (fun _ => Ok (400, 300)).

(** ** More of the normalizer *)

(** Decoded JSON that fails the test of line 34: a falsy value, a value
    that is not a list, or a list whose first element is an object
    without the key [annotations]. *)
Definition shape_mismatch (annotations_data : json) : Prop :=
  truthy annotations_data = false
  \/ (forall l, annotations_data <> JList l)
  \/ (exists d rest, annotations_data = JList (JDict d :: rest)
                     /\ dict_has "annotations" d = false).

(** ** Drawing the boxes *)

Definition string_label (b : box) : Prop := exists s, label b = JStr s.

Section DrawVocabulary.
Context {F : Type}.

(** The corner lists of the rectangles and the strings of the texts
    drawn on an image, in drawing order. *)
Definition rectangles (ops : list (draw_op (F:=F))) : list (list Z) :=
  flat_map (fun op => match op with Rectangle xy _ _ => [xy] | _ => [] end) ops.

Definition texts (ops : list (draw_op (F:=F))) : list string :=
  flat_map (fun op => match op with Text _ s _ => [s] | _ => [] end) ops.

End DrawVocabulary.

Definition corners (b : box) : list Z := [x_min b; y_min b; x_max b; y_max b].

Definition label_text (b : box) : list string :=
  match label b with JStr s => [s] | _ => [] end.

(** ** The states the events lead to *)

Section SessionVocabulary.
Context {F : Type} {NumF : Number F}.

(** A flat coordinate list of at least one point. *)
Definition point_list (coords : list F) : Prop :=
  coords <> [] /\ Nat.even (List.length coords) = true.

Definition zero_or_positive (v : F) : Prop :=
  v = of_int 0 \/ nltb (of_int 0) v = true.

(** What the view handlers (zoom, pan, resize) leave as it is. *)
Definition same_session (a a' : app (F:=F)) : Prop :=
  original_image_pil a' = original_image_pil a
  /\ drawings_on_canvas a' = drawings_on_canvas a
  /\ drawing_active a' = drawing_active a
  /\ current_drawing_coords_unscaled a' = current_drawing_coords_unscaled a
  /\ saved a' = saved a.

Definition placed (a : app (F:=F)) : Prop :=
  zero_or_positive (image_x_offset a) /\ zero_or_positive (image_y_offset a).

Definition session_invariant (a : app (F:=F)) : Prop :=
  Forall (fun s : drawing => point_list (fst (fst s))) (drawings_on_canvas a)
  /\ (forall l, current_drawing_coords_unscaled a = Some l -> point_list l)
  /\ placed a
  /\ (original_image_pil a = None ->
      drawings_on_canvas a = [] /\ saved a = [] /\ drawing_active a = false
      /\ current_drawing_coords_unscaled a = None).

Definition is_view_event (ev : event (F:=F)) : bool :=
  match ev with
  | Configure _ | View _ | MouseWheel _ => true
  | _ => false
  end.

(** The image the loaders make of an image file and a label file. *)
Definition annotated_image (d : disk) (img_path label_path : string)
           (class_names : option (list string)) : option (image (F:=F)) :=
  match Image_open d img_path with
  | Ok sz =>
      draw_bounding_boxes d img_path
        (annotations (parse_annotations (files d) label_path
                                        (fst sz) (snd sz) class_names))
  | Raise _ => None
  end.

(** What a load leaves in the state: nothing new when there is no
    annotated image, else that image and no stroke. *)
Definition loaded (a a' : app (F:=F)) (r : option (image (F:=F))) : Prop :=
  match r with
  | None => a' = a
  | Some im =>
      original_image_pil a' = Some im
      /\ drawings_on_canvas a' = []
      /\ saved a' = saved a
  end.

End SessionVocabulary.

(** ** Class names *)

(** A string [str.strip] leaves as it is. *)
Definition trimmed (s : string) : Prop := strip s = s.

(** ** Navigation *)

Section NavigationVocabulary.
Import PyOs Navigation.
Context {F : Type} {NumF : Number F}.

(** The index is a position of the list, when the list has one. *)
Definition index_in_range (b : browser (F:=F)) : Prop :=
  0 <= current_image_index b
  /\ (image_files_for_auto b <> [] ->
      current_image_index b < Z.of_nat (List.length (image_files_for_auto b))).

(** The entry at an index, counted from zero. *)
Definition entry_at (b : browser (F:=F)) (i : Z) : option pair :=
  if i <? 0 then None else nth_error (image_files_for_auto b) (Z.to_nat i).

(** Everything but the viewer and the entry box. *)
Definition same_list (b b' : browser (F:=F)) : Prop :=
  image_files_for_auto b' = image_files_for_auto b
  /\ shown b' = shown b.

(** What showing the entry [p] does to the viewer. *)
Definition shows (d : disk) (p : pair) (v v' : app (F:=F)) : Prop :=
  v' = fst (Viewer.show_current_automated_image d p v).

End NavigationVocabulary.

(** ** The folder scan *)

Section ScanVocabulary.
Import PyOs Navigation.

Definition image_of (p : pair) : string := fst (fst p).
Definition label_of (p : pair) : string := snd (fst p).

(** Every element is at most the ones after it. *)
Fixpoint ascending (l : list string) : Prop :=
  match l with
  | [] => True
  | x :: r => Forall (fun y => String.leb x y = true) r /\ ascending r
  end.

(** The directories the scan reads images and labels from. *)
Definition scan_dirs (t : tree) (root_folder : string) : string * string :=
  if negb (isdir t (join root_folder "images"))
     || negb (isdir t (join root_folder "labels"))
  then (root_folder, root_folder)
  else (join root_folder "images", join root_folder "labels").

(** The label files looked for, in this order, for an image. *)
Definition label_candidates (labels_dir img_path : string) : list string :=
  map (fun ext => join labels_dir (fst (splitext (basename img_path)) ++ ext)%string)
      [".json"; ".xml"; ".txt"].

(** The class names of the folder. *)
Definition folder_class_names (d : disk) (root_folder : string) : list string :=
  match List.find (path_exists d)
                  (map (join root_folder) ["classes.txt"; "classes.names"]) with
  | Some p => load_yolo_classes d p
  | None => []
  end.

End ScanVocabulary.

(** ** Fitting *)

(** A folder with one 97x50 image and an empty YOLO label file. *)
Definition narrow_disk : disk :=
  Disk (World (fun _ => Raise FileNotFoundError) (fun _ => Raise FileNotFoundError)
              (fun _ => Ok ""))
       (fun _ => true) (fun _ => Ok (97, 50)).

(** The size [redraw_canvas] displays an image of the given size at. *)
Definition displayed_size {F : Type} {NumF : Number F} (a : app (F:=F))
           (img_w img_h : Z) : result (Z * Z) :=
  match trunc (nmul (of_int img_w) (zoom_level a)) with
  | Ok disp_w =>
      match trunc (nmul (of_int img_h) (zoom_level a)) with
      | Ok disp_h => Ok (disp_w, disp_h)
      | Raise e => Raise e
      end
  | Raise e => Raise e
  end.

(** ** A stroke *)

Section GestureVocabulary.
Context {F : Type} {NumF : Number F}.

(** The events of a drag with the left button in draw mode: the press,
    the motions, the release. *)
Definition drag (pts : list (Z * Z)) : list (event (F:=F)) :=
  match pts with
  | [] => []
  | (x, y) :: rest =>
      StartDraw x y :: map (fun p => DoDraw (fst p) (snd p)) rest ++ [EndDraw]
  end.

(** The image point under a position of the pointer. *)
Definition image_point (a : app (F:=F)) (p : Z * Z) : result (F * F) :=
  to_image_space (zoom_level a) (image_x_offset a) (image_y_offset a)
                 (canvasx a (fst p)) (canvasy a (snd p)).

(** Points as a flat coordinate list. *)
Definition flat (qs : list (F * F)) : list F :=
  flat_map (fun q => [fst q; snd q]) qs.

(** The offsets are the ones [redraw_canvas] computes. *)
Definition settled (a : app (F:=F)) : Prop :=
  image_x_offset (fst (redraw_canvas a)) = image_x_offset a
  /\ image_y_offset (fst (redraw_canvas a)) = image_y_offset a.

(** The state during a drag that began in [a]: the view of [a], the
    stroke so far. *)
Definition dragging (a s : app (F:=F)) (l : list F) : Prop :=
  original_image_pil s = original_image_pil a
  /\ canvas_size s = canvas_size a /\ canvas_origin s = canvas_origin a
  /\ zoom_level s = zoom_level a
  /\ image_x_offset s = image_x_offset a /\ image_y_offset s = image_y_offset a
  /\ drawings_on_canvas s = drawings_on_canvas a
  /\ saved s = saved a
  /\ drawing_active s = true
  /\ current_drawing_coords_unscaled s = Some l.

End GestureVocabulary.

(** ** Coordinates in XML *)

(** Why reading the coordinate [tag] of a [bndbox] raised [e]: the
    element is missing, it has no text, its text is not a number (or is
    [nan]), or the number is infinite. *)
Definition coordinate_failure (bndbox : xml) (tag : string) (e : exn) : Prop :=
  (find tag bndbox = None /\ e = AttributeError)
  \/ exists el,
       find tag bndbox = Some el
       /\ ((text_of el = None /\ e = TypeError)
           \/ exists s, text_of el = Some s /\ (e = ValueError \/ e = OverflowError)).

End Spec.
Import Spec PyObj Viewer.

(* ================================================================== *)
(** * Facts about the builtins *)

Section PathFacts.


Lemma lower_char_sep c : is_sep (lower_char c) = is_sep c.
Proof. destruct c as [[] [] [] [] [] [] [] []]; reflexivity. Qed.

Lemma lower_char_dot c : is_dot (lower_char c) = is_dot c.
Proof. destruct c as [[] [] [] [] [] [] [] []]; reflexivity. Qed.

Lemma no_sep_lower s : no_sep s -> no_sep (lower_chars s).
Proof.
  unfold no_sep, lower_chars. induction s as [|c s IH]; simpl; auto.
  rewrite lower_char_sep. intros H. apply andb_true_iff in H as [-> H]. simpl. auto.
Qed.

Lemma no_dot_lower s : no_dot s -> no_dot (lower_chars s).
Proof.
  unfold no_dot, lower_chars. induction s as [|c s IH]; simpl; auto.
  rewrite lower_char_dot. intros H. apply andb_true_iff in H as [-> H]. simpl. auto.
Qed.

Lemma no_sep_app s t : no_sep (s ++ t) <-> no_sep s /\ no_sep t.
Proof. unfold no_sep. rewrite forallb_app, andb_true_iff. tauto. Qed.

(** [split_last_sep]: the basename has no separator, and any other
    separator-free basename under the same directory splits alike. *)
Lemma split_last_sep_free b : no_sep b -> split_last_sep b = ([], b).
Proof.
  unfold no_sep. induction b as [|c b IH]; simpl; auto.
  intros H. apply andb_true_iff in H as [Hc H]. rewrite (IH H).
  destruct (is_sep c); [discriminate|reflexivity].
Qed.

Lemma split_last_sep_spec s d b :
  split_last_sep s = (d, b) ->
  s = d ++ b /\ no_sep b /\
  forall b', no_sep b' -> split_last_sep (d ++ b') = (d, b').
Proof.
  revert d b. induction s as [|c s IH]; simpl; intros d b H.
  - inversion H; subst. split; [reflexivity|]. split; [reflexivity|].
    intros b' Hb'. apply split_last_sep_free, Hb'.
  - destruct (split_last_sep s) as [d0 b0] eqn:E.
    destruct (IH _ _ eq_refl) as (Hs & Hb0 & Hrep).
    destruct d0 as [|x d0].
    + destruct (is_sep c) eqn:Hc; inversion H; subst; clear H.
      * split; [reflexivity|]. split; [exact Hb0|].
        intros b' Hb'. simpl. rewrite (split_last_sep_free Hb'), Hc. reflexivity.
      * split; [reflexivity|]. split.
        -- unfold no_sep. simpl. rewrite Hc. exact Hb0.
        -- intros b' Hb'. apply split_last_sep_free, Hb'.
    + inversion H; subst; clear H. split; [reflexivity|]. split; [exact Hb0|].
      intros b' Hb'. simpl. simpl in Hrep. rewrite (Hrep b' Hb'). reflexivity.
Qed.


Lemma span_dots_free t : starts_with_dot t = false -> span_dots t = ([], t).
Proof. destruct t as [|c t]; simpl; auto. intros ->. reflexivity. Qed.

Lemma span_dots_spec s d t :
  span_dots s = (d, t) ->
  s = d ++ t /\ starts_with_dot t = false /\
  forall t', starts_with_dot t' = false -> span_dots (d ++ t') = (d, t').
Proof.
  revert d t. induction s as [|c s IH]; simpl; intros d t H.
  - inversion H; subst. split; [reflexivity|]. split; [reflexivity|].
    intros t' Ht'. apply span_dots_free, Ht'.
  - destruct (is_dot c) eqn:Hc.
    + destruct (span_dots s) as [d0 t0] eqn:E. inversion H; subst; clear H.
      destruct (IH _ _ eq_refl) as (Hs & Ht & Hrep).
      split; [simpl; congruence|]. split; [exact Ht|].
      intros t' Ht'. simpl. rewrite Hc, (Hrep t' Ht'). reflexivity.
    + inversion H; subst; clear H. split; [reflexivity|]. split; [exact Hc|].
      intros t' Ht'. apply span_dots_free, Ht'.
Qed.

Lemma split_last_dot_none s : no_dot s -> split_last_dot s = None.
Proof.
  unfold no_dot. induction s as [|c s IH]; simpl; auto.
  intros H. apply andb_true_iff in H as [Hc H]. rewrite (IH H).
  destruct (is_dot c); [discriminate|reflexivity].
Qed.


Lemma split_last_dot_none_inv s : split_last_dot s = None -> no_dot s.
Proof.
  unfold no_dot. induction s as [|x s IH]; simpl; auto.
  destruct (split_last_dot s) as [[? ?]|]; [discriminate|].
  destruct (is_dot x); [discriminate|]. intros _. apply IH. reflexivity.
Qed.

Lemma split_last_dot_spec s a e :
  split_last_dot s = Some (a, e) ->
  s = a ++ e /\ is_ext e /\
  forall e', is_ext e' -> split_last_dot (a ++ e') = Some (a, e').
Proof.
  revert a e. induction s as [|c s IH]; simpl; intros a e H; [discriminate|].
  destruct (split_last_dot s) as [[a0 e0]|] eqn:E.
  - inversion H; subst; clear H. destruct (IH _ _ eq_refl) as (Hs & He & Hrep).
    split; [simpl; congruence|]. split; [exact He|].
    intros e' He'. simpl. rewrite (Hrep e' He'). reflexivity.
  - destruct (is_dot c) eqn:Hc; [|discriminate]. inversion H; subst; clear H.
    split; [reflexivity|]. split.
    + exists c, s. split; [reflexivity|]. split; [exact Hc|].
      apply split_last_dot_none_inv, E.
    + intros e' (c' & t' & -> & Hc' & Ht'). simpl.
      rewrite (split_last_dot_none Ht'), Hc'. reflexivity.
Qed.

Lemma is_ext_lower e : is_ext e -> is_ext (lower_chars e).
Proof.
  intros (c & t & -> & Hc & Ht). exists (lower_char c), (lower_chars t).
  split; [reflexivity|]. split; [rewrite lower_char_dot; exact Hc|].
  apply no_dot_lower, Ht.
Qed.

Lemma is_ext_no_sep_lower e : is_ext e -> no_sep e -> no_sep (lower_chars e).
Proof. intros _. apply no_sep_lower. Qed.

(** Lowering the letters of the extension leaves the split where it was. *)
Lemma splitext_chars_lower_ext p r e :
  splitext_chars p = (r, e) ->
  splitext_chars (r ++ lower_chars e) = (r, lower_chars e).
Proof.
  unfold splitext_chars.
  destruct (split_last_sep p) as [dir base] eqn:E1.
  destruct (span_dots base) as [dots name] eqn:E2.
  destruct (@split_last_sep_spec _ _ _ E1) as (Hp & Hb & Hrep1).
  destruct (@span_dots_spec _ _ _ E2) as (Hbase & Hname & Hrep2).
  destruct (split_last_dot name) as [[stem ext]|] eqn:E3.
  - intros H; inversion H; subst r e; clear H.
    destruct (@split_last_dot_spec _ _ _ E3) as (Hn & Hext & Hrep3).
    subst name base.
    apply no_sep_app in Hb as [Hdots Hb]. apply no_sep_app in Hb as [Hstem Hext_ns].
    assert (Hb' : no_sep (dots ++ stem ++ lower_chars ext)).
    { apply no_sep_app; split; auto. apply no_sep_app; split; auto.
      apply no_sep_lower; auto. }
    assert (Hst : starts_with_dot (stem ++ lower_chars ext) = false).
    { destruct Hext as (c & t & -> & Hc & Ht). destruct stem as [|x stem]; simpl in *.
      - congruence.
      - exact Hname. }
    replace ((dir ++ dots ++ stem) ++ lower_chars ext)
      with (dir ++ (dots ++ stem ++ lower_chars ext))
      by (now rewrite !app_assoc).
    rewrite (Hrep1 _ Hb'), (Hrep2 _ Hst), (Hrep3 _ (is_ext_lower Hext)).
    reflexivity.
  - intros H; inversion H; subst r e; clear H. simpl. rewrite app_nil_r.
    rewrite E1, E2, E3. reflexivity.
Qed.

End PathFacts.

(* ================================================================== *)
(** * The normalizer *)

Lemma list_ascii_of_string_app s t :
  list_ascii_of_string (s ++ t)%string
  = list_ascii_of_string s ++ list_ascii_of_string t.
Proof. induction s as [|c s IH]; simpl; [reflexivity|]. now rewrite IH. Qed.

Lemma splitext_lower_ext path root ext :
  splitext path = (root, ext) ->
  splitext (root ++ lower ext)%string = (root, lower ext).
Proof.
  unfold splitext, lower.
  destruct (splitext_chars (list_ascii_of_string path)) as [r e] eqn:E.
  intros H; inversion H; subst root ext; clear H.
  rewrite list_ascii_of_string_app, !list_ascii_of_string_of_list_ascii.
  rewrite (@splitext_chars_lower_ext _ _ _ E).
  reflexivity.
Qed.

Lemma lower_char_idem c : lower_char (lower_char c) = lower_char c.
Proof. destruct c as [[] [] [] [] [] [] [] []]; reflexivity. Qed.

Lemma lower_idem s : lower (lower s) = lower s.
Proof.
  unfold lower. rewrite list_ascii_of_string_of_list_ascii. f_equal.
  unfold lower_chars. rewrite map_map. apply map_ext, lower_char_idem.
Qed.

Lemma format_of_unsupported e :
  format_of e = Unsupported <-> e <> ".json" /\ e <> ".xml" /\ e <> ".txt".
Proof.
  unfold format_of.
  destruct (String.eqb_spec e ".json"); [split; [discriminate | tauto]|].
  destruct (String.eqb_spec e ".xml"); [split; [discriminate | tauto]|].
  destruct (String.eqb_spec e ".txt"); [split; [discriminate | tauto]|].
  tauto.
Qed.



Lemma except_clause_cases path e :
  except_clause path e = NotFound path
  \/ except_clause path e = ErrorParsing path e
  \/ except_clause path e = Unexpected path e.
Proof. destruct e; simpl; auto. Qed.

Lemma parse_yolo_raises w path W H cn e :
  read_text w path = Raise e ->
  annotations (parse_yolo w path W H cn) = []
  /\ raised (parse_yolo w path W H cn) = Some e.
Proof. unfold parse_yolo. intros ->. split; reflexivity. Qed.



Lemma for_each_app A (body : A -> result (option box)) pre post acc :
  for_each body (pre ++ post) acc =
  match for_each body pre acc with
  | (acc', None) => for_each body post acc'
  | stopped => stopped
  end.
Proof.
  revert acc. induction pre as [|a pre IH]; intros acc; simpl; [reflexivity|].
  destruct (body a) as [[b|]|e]; auto.
Qed.

Lemma for_each_skip A (body : A -> result (option box)) pre a post acc :
  body a = Ok None ->
  for_each body (pre ++ a :: post) acc = for_each body (pre ++ post) acc.
Proof.
  intros Ha. rewrite !for_each_app. simpl. rewrite Ha. reflexivity.
Qed.

Lemma json_entry_int_fields d c x y w h :
  dict_get "coordinates" d = JDict c ->
  dict_get "x" c = JInt x -> dict_get "y" c = JInt y ->
  dict_get "width" c = JInt w -> dict_get "height" c = JInt h ->
  json_entry (JDict d)
  = Ok (Some (Box (dict_get_default "label" (JStr "No Label") d)
                  x y (x + w) (y + h))).
Proof.
  intros Hc Hx Hy Hw Hh. unfold json_entry. simpl. rewrite Hc.
  assert (Ht : truthy (JDict c) = true).
  { destruct c; [discriminate Hx | reflexivity]. }
  rewrite Ht. simpl. rewrite Hx, Hy, Hw, Hh. reflexivity.
Qed.

Lemma json_entry_lacking anno : lacks_coordinate anno -> json_entry anno = Ok None.
Proof.
  intros (d & c & -> & Hc & Hmiss). unfold json_entry. simpl. rewrite Hc.
  destruct (truthy (JDict c)); [|reflexivity]. simpl.
  destruct Hmiss as [E|[E|[E|E]]]; rewrite E; simpl;
    rewrite ?andb_false_r; reflexivity.
Qed.

(** C3 (counterexample). Fractional fields: [x = 10.5] and
    [width = 30.7] give [x_min = 10] and [x_max = 41], so [x_min] is not
    [x] and [x_max - x_min] is not [width]. *)
Lemma json_fractional_fields_are_truncated :
  json_entry (entry "Weight" (JFloat 10.5) (JInt 20) (JFloat 30.7) (JInt 40))
  = Ok (Some (Box (JStr "Weight") 10 20 41 60))
  /\ PrimFloat.eqb (of_int 10) 10.5 = false
  /\ PrimFloat.eqb (of_int (41 - 10)) 30.7 = false.
Proof. repeat split; vm_compute; reflexivity. Qed.

(** C3 (amended). For an entry whose four coordinate fields are integers
    the box has [x_min = x], [y_min = y], [x_max = x + width] and
    [y_max = y + height], so the differences are [width] and [height]
    exactly; Example 1 yields the one box of the specification. *)
Theorem json_box_of_integer_fields :
  (forall d c x y w h,
      dict_get "coordinates" d = JDict c ->
      dict_get "x" c = JInt x -> dict_get "y" c = JInt y ->
      dict_get "width" c = JInt w -> dict_get "height" c = JInt h ->
      exists b,
        json_entry (JDict d) = Ok (Some b)
        /\ x_min b = x /\ y_min b = y /\ x_max b = x + w /\ y_max b = y + h
        /\ x_max b - x_min b = w /\ y_max b - y_min b = h)
  /\ (forall w path W H cn,
        file_extension path = ".json" ->
        json_load w path = Ok example_1 ->
        parse_annotations w path W H cn
        = Run [Box (JStr "Weight") 10 20 40 60] [] None).
Proof.
  split.
  - intros d c x y w h Hc Hx Hy Hw Hh.
    eexists. split; [apply (@json_entry_int_fields d c x y w h Hc Hx Hy Hw Hh)|].
    simpl. repeat split; lia.
  - intros w path W H cn Hext Hload.
    unfold parse_annotations, try_block. rewrite Hext. simpl.
    unfold parse_json. rewrite Hload. reflexivity.
Qed.

Lemma json_box_of_integer_fields_witness :
  let w := World (fun _ => Ok example_1) (fun _ => Raise ParseError)
                 (fun _ => Raise FileNotFoundError) in
  file_extension "wheel_07.json" = ".json"
  /\ json_load w "wheel_07.json" = Ok example_1
  /\ parse_annotations w "wheel_07.json" 640 480 None
     = Run [Box (JStr "Weight") 10 20 40 60] [] None.
Proof.
  split; [reflexivity|]. split; [reflexivity|].
  exact (proj2 json_box_of_integer_fields
           (World (fun _ => Ok example_1) (fun _ => Raise ParseError)
                  (fun _ => Raise FileNotFoundError))
           "wheel_07.json" 640 480 None eq_refl eq_refl).
Defined.






Lemma yolo_label_in_range names c :
  0 <= c < Z.of_nat (List.length names) ->
  yolo_label (Some names) c
  = match nth_error names (Z.to_nat c) with
    | Some s => Ok s
    | None => Raise IndexError
    end.
Proof.
  intros [H0 H1]. unfold yolo_label, list_index.
  destruct names as [|n names]; [simpl in H1; lia|].
  apply Z.ltb_lt in H1. rewrite H1.
  assert (E : (c <? 0) = false) by (apply Z.ltb_ge; lia).
  rewrite E, E. reflexivity.
Qed.

Lemma yolo_label_above names c :
  Z.of_nat (List.length names) <= c ->
  yolo_label (Some names) c = Ok ("Class " ++ str_of_int c)%string.
Proof.
  intros H. unfold yolo_label. destruct names as [|n names]; [reflexivity|].
  assert (E : (c <? Z.of_nat (List.length (n :: names))) = false) by (apply Z.ltb_ge; lia).
  rewrite E. reflexivity.
Qed.

(** C6 (the code at the failing inputs). With the table ["cat"; "dog"]
    the class id -1 passes the test [class_id < len(class_names)] and
    indexes from the end: the label is "dog", not "Class -1".  The class
    id -3 passes the test too and the indexing raises [IndexError], which
    ends the parsing of the file: the line after it gives no box. *)
Theorem negative_class_id_indexes_from_the_end :
  yolo_label (Some ["cat"; "dog"]) (-1) = Ok "dog"
  /\ yolo_label (Some ["cat"; "dog"]) (-3) = Raise IndexError
  /\ (forall path,
        file_extension path = ".txt" ->
        parse_annotations (one_text_file "-1 0.5 0.5 0.2 0.2") path 100 100
                          (Some ["cat"; "dog"])
        = Run [Box (JStr "dog") 40 40 60 60] [] None)
  /\ (forall path,
        file_extension path = ".txt" ->
        parse_annotations
          (one_text_file ("-3 0.5 0.5 0.2 0.2" ++ String LF "0 0.5 0.5 0.2 0.2"))
          path 100 100 (Some ["cat"; "dog"])
        = Run [] [Unexpected path IndexError] None)
  /\ (forall names c, 0 <= c < Z.of_nat (List.length names) ->
        exists s, nth_error names (Z.to_nat c) = Some s
                  /\ yolo_label (Some names) c = Ok s)
  /\ (forall names c, Z.of_nat (List.length names) <= c ->
        yolo_label (Some names) c = Ok ("Class " ++ str_of_int c)%string)
  /\ (forall c, yolo_label None c = Ok ("Class " ++ str_of_int c)%string)
  /\ (forall c, yolo_label (Some []) c = Ok ("Class " ++ str_of_int c)%string).
Proof.
  split; [reflexivity|]. split; [reflexivity|].
  split.
  { intros path Hext. unfold parse_annotations, try_block. rewrite Hext.
    vm_compute. reflexivity. }
  split.
  { intros path Hext. unfold parse_annotations, try_block. rewrite Hext.
    vm_compute. reflexivity. }
  split.
  { intros names c Hc. rewrite (yolo_label_in_range names Hc).
    destruct (nth_error names (Z.to_nat c)) as [s|] eqn:E.
    - exists s. split; reflexivity.
    - apply nth_error_None in E. lia. }
  split; [intros names c Hc; apply yolo_label_above, Hc|].
  split; reflexivity.
Qed.

Lemma negative_class_id_indexes_from_the_end_witness :
  file_extension "labels/frame_12.txt" = ".txt"
  /\ parse_annotations (one_text_file "-1 0.5 0.5 0.2 0.2") "labels/frame_12.txt"
                       100 100 (Some ["cat"; "dog"])
     = Run [Box (JStr "dog") 40 40 60 60] [] None.
Proof.
  split; [reflexivity|].
  exact (proj1 (proj2 (proj2 negative_class_id_indexes_from_the_end))
           "labels/frame_12.txt" eq_refl).
Defined.

Section EraseFacts.
Context {F : Type} {NumF : Number F}.

Lemma near_any_pairs (ex ey tol : F) :
  forall n coords, List.length coords = (2 * n)%nat ->
    near_any coords ex ey tol = Ok (existsb (point_near ex ey tol) (points coords)).
Proof.
  induction n as [|n IH]; intros coords Hlen.
  - destruct coords; [reflexivity | discriminate].
  - destruct coords as [|px [|py rest]]; simpl in Hlen; try lia.
    assert (Hrest : List.length rest = (2 * n)%nat) by lia.
    simpl. unfold point_near at 1. simpl.
    destruct (nltb (nabs (nsub px ex)) tol); simpl.
    + destruct (nltb (nabs (nsub py ey)) tol); simpl; [reflexivity | apply IH, Hrest].
    + apply IH, Hrest.
Qed.

Lemma near_any_even (ex ey tol : F) coords :
  Nat.even (List.length coords) = true ->
  near_any coords ex ey tol = Ok (existsb (point_near ex ey tol) (points coords)).
Proof.
  intros H. apply Nat.even_spec in H. destruct H as [n Hn].
  apply (near_any_pairs ex ey tol n), Hn.
Qed.

Lemma keep_far_filter (ex ey tol : F) ds :
  Forall even_coords ds ->
  keep_far ds ex ey tol = Ok (filter (fun d => negb (stroke_hit ex ey tol d)) ds).
Proof.
  induction 1 as [|d ds Hd Hds IH]; simpl; [reflexivity|].
  rewrite (near_any_even ex ey tol _ Hd), IH. unfold stroke_hit.
  destruct (existsb (point_near ex ey tol) (points (fst (fst d)))); reflexivity.
Qed.

Lemma redraw_canvas_drawings (a : app) :
  drawings_on_canvas (fst (redraw_canvas a)) = drawings_on_canvas a.
Proof.
  unfold redraw_canvas, mbind, read, lift, ret, assign.
  destruct (original_image_pil a) as [img|]; simpl; [|reflexivity].
  destruct (trunc _); simpl; [|reflexivity].
  destruct (trunc _); simpl; reflexivity.
Qed.

End EraseFacts.

(** C2 (counterexample). A 400x300 image fitted into an 800x600 canvas
    is shown at zoom 2.0.  One stroke is drawn from image point (52,48)
    to image point (90,90).  An erase gesture at image point (50,50)
    has tolerance 2.5; it removes the stroke, and with it the point
    (90,90), whose distances to (50,50) are 40 on both axes. *)
Lemma erase_removes_points_beyond_tolerance :
  let a := run_events plain_disk
             [ProcessSingleImage "a.png" "a.txt" "";
              StartDraw 104 96; DoDraw 180 180; EndDraw]
             (initial (F:=float) (800, 600)) in
  let a' := step plain_disk a (DoErase 100 100) in
  zoom_level a = 2%float
  /\ to_image_space (zoom_level a) (image_x_offset a) (image_y_offset a)
                    (canvasx a 100) (canvasy a 100) = Ok (50, 50)%float
  /\ truediv (of_int 5) (zoom_level a) = Ok 2.5%float
  /\ stored_points a = [(52, 48); (90, 90)]%float
  /\ point_near 50%float 50%float 2.5%float (90, 90)%float = false
  /\ stored_points a' = [].
Proof. vm_compute. repeat split. Qed.

(** C2 (amended). An erase gesture at image point (ex, ey) with zoom
    level z removes exactly the strokes that have at least one point
    whose two axis distances to (ex, ey) are both below 5/z; such a
    stroke goes with all its points, the other strokes stay as they
    are and in their order.  At zoom 2.0 the tolerance is 2.5. *)
Theorem erase_removes_whole_strokes :
  forall (F : Type) (NumF : Number F) (d : disk) (a : app (F:=F))
         (x y : Z) (img : image) (ex ey tol : F),
    original_image_pil a = Some img ->
    to_image_space (zoom_level a) (image_x_offset a) (image_y_offset a)
                   (canvasx a x) (canvasy a y) = Ok (ex, ey) ->
    truediv (of_int 5) (zoom_level a) = Ok tol ->
    Forall even_coords (drawings_on_canvas a) ->
    drawings_on_canvas (step d a (DoErase x y))
    = filter (fun s => negb (stroke_hit ex ey tol s)) (drawings_on_canvas a).
Proof.
  intros F NumF d a x y img ex ey tol Himg Hpt Htol Heven.
  unfold step, handler, do_erase, mbind, read, lift, assign, _canvas_to_image_coords.
  rewrite Himg, Hpt. simpl. rewrite Htol. simpl.
  rewrite (keep_far_filter ex ey tol Heven). simpl.
  match goal with |- context [if ?c then _ else _] => destruct c end.
  - rewrite redraw_canvas_drawings. reflexivity.
  - reflexivity.
Qed.

Lemma erase_removes_whole_strokes_witness :
  let a := run_events plain_disk
             [ProcessSingleImage "a.png" "a.txt" "";
              StartDraw 104 96; DoDraw 180 180; EndDraw;
              StartDraw 105 100; DoDraw 120 120; EndDraw;
              StartDraw 20 20; DoDraw 40 40; EndDraw]
             (initial (F:=float) (800, 600)) in
  truediv (of_int 5) (zoom_level a) = Ok 2.5%float
  /\ map (fun s : drawing => fst (fst s)) (drawings_on_canvas a)
     = [[52; 48; 90; 90]; [52.5; 50; 60; 60]; [10; 10; 20; 20]]%float
  /\ map (fun s : drawing => fst (fst s))
         (drawings_on_canvas (step plain_disk a (DoErase 100 100)))
     = [[52.5; 50; 60; 60]; [10; 10; 20; 20]]%float.
Proof.
  intros a.
  assert (Himg : original_image_pil a = Some (Image "a.png" (400, 300) []))
    by (vm_compute; reflexivity).
  assert (Hpt : to_image_space (zoom_level a) (image_x_offset a) (image_y_offset a)
                  (canvasx a 100) (canvasy a 100) = Ok (50, 50)%float)
    by (vm_compute; reflexivity).
  assert (Htol : truediv (of_int 5) (zoom_level a) = Ok 2.5%float)
    by (vm_compute; reflexivity).
  assert (Heven : Forall even_coords (drawings_on_canvas a))
    by (vm_compute; repeat constructor).
  pose proof (@erase_removes_whole_strokes float binary64 plain_disk a 100 100
                _ _ _ _ Himg Hpt Htol Heven) as W.
  split; [exact Htol|]. split; [vm_compute; reflexivity|].
  rewrite W. vm_compute. reflexivity.
Defined.

Section ZoomFacts.
Context {F : Type} {NumF : Number F}.

Lemma redraw_canvas_keeps (a : app) :
  zoom_level (fst (redraw_canvas a)) = zoom_level a
  /\ original_image_pil (fst (redraw_canvas a)) = original_image_pil a
  /\ saved (fst (redraw_canvas a)) = saved a.
Proof.
  unfold redraw_canvas, mbind, read, lift, ret, assign.
  destruct (original_image_pil a) as [img|] eqn:E; simpl; [|auto].
  destruct (trunc _); simpl; [|auto].
  destruct (trunc _); simpl; auto.
Qed.

(** With an image loaded a wheel event multiplies the zoom level by the
    factor of the event, whatever the redraw does afterwards. *)
Lemma wheel_step (d : disk) (a : app) (e : wheel) img :
  original_image_pil a = Some img ->
  zoom_level (step d a (MouseWheel e)) = nmul (zoom_level a) (zoom_factor e)
  /\ original_image_pil (step d a (MouseWheel e)) = Some img.
Proof.
  intros Himg. unfold step, handler, on_mouse_wheel_zoom, mbind, read, assign.
  rewrite Himg. simpl.
  destruct (redraw_canvas_keeps (set_zoom (nmul (zoom_level a) (zoom_factor e)) a))
    as (Hz & Hi & _).
  destruct (redraw_canvas _) as [a' r]. simpl in *. destruct r; simpl; rewrite ?Hz, ?Hi; auto.
Qed.

Lemma wheel_without_image (d : disk) (a : app) (e : wheel) :
  original_image_pil a = None -> step d a (MouseWheel e) = a.
Proof.
  intros Himg. unfold step, handler, on_mouse_wheel_zoom, mbind, read.
  rewrite Himg. reflexivity.
Qed.

Lemma zoom_factor_in (e : wheel) : zooms_in e -> zoom_factor e = lit_1_1.
Proof.
  unfold zooms_in, zoom_factor. intros [H|H].
  - apply Z.ltb_lt in H. rewrite H. reflexivity.
  - rewrite H. simpl. rewrite orb_true_r. reflexivity.
Qed.

End ZoomFacts.

Lemma exact_round_trip_axis (zoom off c : Q) :
  ~ zoom == 0 -> (c - off) / zoom * zoom + off == c.
Proof. intros Hz. field. exact Hz. Qed.

Lemma exact_truediv (x y : Q) : ~ y == 0 -> truediv x y = Ok (x / y)%Q.
Proof.
  intros Hy. unfold truediv. simpl.
  destruct (Qeq_bool y 0) eqn:E; [|reflexivity].
  apply Qeq_bool_eq in E. contradiction.
Qed.

Lemma within_one_pixel_axes (zoom ox oy cx cy : float) :
  axis_within_pixel zoom ox cx = true ->
  axis_within_pixel zoom oy cy = true ->
  within_one_pixel zoom ox oy cx cy = true.
Proof.
  unfold axis_within_pixel, within_one_pixel, to_image_space, to_screen_space.
  destruct (truediv (nsub cx ox) zoom) as [ix|]; [|discriminate].
  destruct (truediv (nsub cy oy) zoom) as [iy|]; [|intros _; discriminate].
  simpl. intros -> ->. reflexivity.
Qed.

Lemma axis_grid_checked :
  forallb (fun z => forallb (fun off => forallb (axis_within_pixel z off) pixels)
                            sample_offsets) zoom_ladder = true.
Proof. vm_compute. reflexivity. Qed.

Lemma axis_grid (z off c : float) :
  In z zoom_ladder -> In off sample_offsets -> In c pixels ->
  axis_within_pixel z off c = true.
Proof.
  intros Hz Ho Hc. pose proof axis_grid_checked as G.
  rewrite forallb_forall in G. specialize (G z Hz).
  rewrite forallb_forall in G. specialize (G off Ho).
  rewrite forallb_forall in G. exact (G c Hc).
Qed.




Section ZoomOutFacts.
Context {F : Type} {NumF : Number F}.

Lemma zoom_factor_out (e : wheel) :
  ~ zooms_in e -> zoom_factor e = ndiv (of_int 1) lit_1_1.
Proof.
  unfold zooms_in, zoom_factor. intros H.
  destruct (0 <? delta e) eqn:E1.
  - exfalso. apply H. left. apply Z.ltb_lt, E1.
  - destruct (num e) as [n|]; simpl; [|reflexivity].
    destruct (n =? 4) eqn:E2; [|reflexivity].
    exfalso. apply H. right. apply Z.eqb_eq in E2. congruence.
Qed.

Lemma run_events_cons (d : disk) (ev : event) evs (a : app) :
  run_events d (ev :: evs) a = run_events d evs (step d a ev).
Proof. reflexivity. Qed.

End ZoomOutFacts.

Lemma exact_zoom_ins (d : disk) (e : wheel) :
  zooms_in e ->
  forall (N : nat) (a : app (F:=Q)) img,
    original_image_pil a = Some img ->
    zoom_level (run_events d (repeat (MouseWheel e) N) a)
    == zoom_level a * (11 # 10) ^ Z.of_nat N.
Proof.
  intros He. induction N as [|N IH]; intros a img Himg.
  - simpl. ring.
  - cbn [repeat]. rewrite run_events_cons.
    destruct (wheel_step d a e Himg) as (Hz & Hi).
    rewrite (IH _ img Hi), Hz, (zoom_factor_in He).
    rewrite Nat2Z.inj_succ, <- Z.add_1_r.
    rewrite Qpower_plus by discriminate.
    simpl. ring.
Qed.

Lemma exact_zoom_in_out (d : disk) (e_in e_out : wheel) (a : app (F:=Q)) img :
  original_image_pil a = Some img ->
  zooms_in e_in -> ~ zooms_in e_out ->
  zoom_level (run_events d [MouseWheel e_in; MouseWheel e_out] a) == zoom_level a.
Proof.
  intros Himg Hin Hout. rewrite !run_events_cons. simpl run_events.
  destruct (wheel_step d a e_in Himg) as (Hz & Hi).
  destruct (wheel_step d _ e_out Hi) as (Hz' & _).
  rewrite Hz', Hz, (zoom_factor_in Hin), (zoom_factor_out Hout). simpl.
  field.
Qed.

Lemma zoom_ladder_checked : forallb zoom_in_out_close zoom_ladder = true.
Proof. vm_compute. reflexivity. Qed.




Section SaveFacts.
Context {F : Type} {NumF : Number F}.

Lemma same_content_refl (a : app (F:=F)) : same_content a a.
Proof. repeat split. Qed.

Lemma same_content_trans (a b c : app (F:=F)) :
  same_content a b -> same_content b c -> same_content a c.
Proof.
  unfold same_content. intros (H1 & H2 & H3) (H4 & H5 & H6).
  repeat split; congruence.
Qed.

Lemma invariant_same_content (d : disk) (a a' : app (F:=F)) :
  same_content a a' -> app_invariant d a -> app_invariant d a'.
Proof.
  unfold same_content, app_invariant. intros (H1 & H2 & _) (Hs & Hi).
  rewrite H1, H2. split; assumption.
Qed.

Lemma redraw_canvas_content (a : app (F:=F)) : same_content a (fst (redraw_canvas a)).
Proof.
  unfold redraw_canvas, mbind, read, lift, ret, assign.
  destruct (original_image_pil a) as [img|] eqn:E; simpl; [|apply same_content_refl].
  destruct (trunc _); simpl; [|apply same_content_refl].
  destruct (trunc _); simpl; [|apply same_content_refl].
  unfold same_content. simpl. auto.
Qed.

Lemma fit_image_to_canvas_content (a : app (F:=F)) :
  same_content a (fst (fit_image_to_canvas a)).
Proof.
  unfold fit_image_to_canvas, mbind, read.
  destruct (original_image_pil a) as [img|] eqn:E; simpl; [|apply same_content_refl].
  destruct (canvas_size a) as [cw ch]. destruct (size img) as [iw ih].
  destruct (_ || _); simpl; [apply same_content_refl|].
  unfold assign. simpl.
  eapply same_content_trans; [|apply redraw_canvas_content]. repeat split.
Qed.

(** Leaves of an unfolded handler that touch neither the image nor the
    drawings nor the saved files. *)
Ltac content_leaf :=
  first [ apply same_content_refl
        | solve [repeat split]
        | eapply same_content_trans; [|apply redraw_canvas_content];
          solve [repeat split] ].

Ltac unfold_method :=
  unfold current_coords, _canvas_to_image_coords;
  unfold mbind, read, assign, lift, ret, throw; simpl.

Lemma wheel_content (e : wheel) (a : app (F:=F)) :
  same_content a (fst (on_mouse_wheel_zoom e a)).
Proof.
  unfold on_mouse_wheel_zoom. unfold_method.
  destruct (original_image_pil a); simpl; content_leaf.
Qed.

Lemma start_draw_content (x y : Z) (a : app (F:=F)) :
  same_content a (fst (start_draw x y a)).
Proof.
  unfold start_draw. unfold_method.
  destruct (original_image_pil a); simpl; [|content_leaf].
  destruct (to_image_space _ _ _ _ _); simpl; content_leaf.
Qed.

Lemma do_draw_content (x y : Z) (a : app (F:=F)) :
  same_content a (fst (do_draw x y a)).
Proof.
  unfold do_draw. unfold_method.
  destruct (drawing_active a); simpl; [|content_leaf].
  destruct (to_image_space _ _ _ _ _); simpl; [|content_leaf].
  destruct (current_drawing_coords_unscaled a); simpl; content_leaf.
Qed.

Lemma end_draw_spec (a : app (F:=F)) :
  original_image_pil (fst (end_draw a)) = original_image_pil a
  /\ saved (fst (end_draw a)) = saved a
  /\ (drawings_on_canvas (fst (end_draw a)) = drawings_on_canvas a
      \/ exists l, drawings_on_canvas (fst (end_draw a))
                   = drawings_on_canvas a
                     ++ [(l, "line", [("fill", OStr "blue"); ("width", OInt 2)])]).
Proof.
  unfold end_draw. unfold_method.
  destruct (drawing_active a); simpl; [|auto].
  destruct (current_drawing_coords_unscaled a) as [l|]; simpl; [|auto].
  match goal with |- context [redraw_canvas ?s] =>
    destruct (redraw_canvas_content s) as (Hd & Hi & Hs)
  end.
  rewrite Hd, Hi, Hs. simpl. split; [reflexivity|]. split; [reflexivity|].
  right. exists l. reflexivity.
Qed.

Lemma keep_far_sublist (P : drawing -> Prop) (ex ey tol : F) ds kept :
  keep_far ds ex ey tol = Ok kept -> Forall P ds -> Forall P kept.
Proof.
  revert kept. induction ds as [|d ds IH]; simpl; intros kept H HP.
  - inversion H. constructor.
  - inversion HP as [|? ? Hd Hds]; subst.
    destruct (near_any _ _ _ _) as [near|]; [|discriminate].
    destruct (keep_far ds ex ey tol) as [k|]; [|discriminate].
    inversion H; subst. specialize (IH k eq_refl Hds).
    destruct near; [exact IH | constructor; assumption].
Qed.

Lemma do_erase_spec (P : drawing -> Prop) (x y : Z) (a : app (F:=F)) :
  original_image_pil (fst (do_erase x y a)) = original_image_pil a
  /\ saved (fst (do_erase x y a)) = saved a
  /\ (Forall P (drawings_on_canvas a) ->
      Forall P (drawings_on_canvas (fst (do_erase x y a)))).
Proof.
  unfold do_erase. unfold_method.
  destruct (original_image_pil a) eqn:Ei; simpl; [|auto].
  destruct (to_image_space _ _ _ _ _) as [p|]; simpl; [|auto].
  destruct (truediv _ _) as [tol|]; simpl; [|auto].
  destruct (keep_far _ _ _ _) as [kept|] eqn:Ek; simpl; [|auto].
  destruct (_ <? _)%nat; simpl.
  - match goal with |- context [redraw_canvas ?s] =>
      destruct (redraw_canvas_content s) as (Hd & Hi & Hs)
    end.
    rewrite Hd, Hi, Hs. simpl. split; [exact Ei|]. split; [reflexivity|].
    apply (@keep_far_sublist P _ _ _ _ _ Ek).
  - split; [exact Ei|]. split; [reflexivity|]. apply (@keep_far_sublist P _ _ _ _ _ Ek).
Qed.

Lemma display_image_on_canvas_spec (im : image) (a : app (F:=F)) :
  original_image_pil (fst (display_image_on_canvas im a)) = Some im
  /\ drawings_on_canvas (fst (display_image_on_canvas im a)) = drawings_on_canvas a
  /\ saved (fst (display_image_on_canvas im a)) = saved a.
Proof.
  unfold display_image_on_canvas, mbind, assign. simpl.
  destruct (fit_image_to_canvas_content (set_image im a)) as (Hd & Hi & Hs).
  rewrite Hd, Hi, Hs. repeat split.
Qed.

Lemma load_and_show_invariant (d : disk) (img_path label_path : string)
      (class_names : option (list string)) (a : app (F:=F)) :
  app_invariant d a ->
  app_invariant d (fst (load_and_show d img_path label_path class_names a)).
Proof.
  intros Hinv. unfold load_and_show, caught, mbind, lift, assign, ret. simpl.
  destruct (Image_open d img_path) as [sz|] eqn:Eo; simpl; [|exact Hinv].
  destruct (draw_bounding_boxes d img_path _) as [im|] eqn:Ed; simpl; [|exact Hinv].
  destruct (display_image_on_canvas_spec im (set_drawings [] a)) as (Hi & Hd & _).
  split.
  - rewrite Hd. constructor.
  - intros img. rewrite Hi. intros E; inversion E; subst img.
    exists img_path, label_path, class_names, sz. split; assumption.
Qed.

Lemma save_current_image_content (file_path : string) (a : app (F:=F)) :
  drawings_on_canvas (fst (save_current_image file_path a)) = drawings_on_canvas a
  /\ original_image_pil (fst (save_current_image file_path a)) = original_image_pil a.
Proof.
  unfold save_current_image. unfold_method.
  destruct (original_image_pil a) eqn:E; simpl; [|auto].
  destruct (file_path =? "")%string; simpl; auto.
Qed.

(** Every handler keeps the invariant. *)
Lemma step_invariant (d : disk) (a : app (F:=F)) (ev : event) :
  app_invariant d a -> app_invariant d (step d a ev).
Proof.
  intros Hinv. unfold step.
  destruct ev as [i l c | ent | chosen | sz | origin | e | x y | x y | | x y | file_path];
    simpl.
  - unfold process_single_image. destruct (_ || _); [exact Hinv|].
    apply load_and_show_invariant, Hinv.
  - unfold show_current_automated_image. destruct ent as [[ip lp] cn].
    apply load_and_show_invariant, Hinv.
  - unfold browse. destruct (chosen =? "")%string; simpl; [exact Hinv|].
    destruct Hinv as (_ & Hi). split; [constructor | exact Hi].
  - unfold mbind, assign. simpl.
    eapply invariant_same_content; [|exact Hinv].
    eapply same_content_trans; [|apply fit_image_to_canvas_content]. repeat split.
  - eapply invariant_same_content; [|exact Hinv]. repeat split.
  - eapply invariant_same_content; [apply wheel_content | exact Hinv].
  - eapply invariant_same_content; [apply start_draw_content | exact Hinv].
  - eapply invariant_same_content; [apply do_draw_content | exact Hinv].
  - destruct (end_draw_spec a) as (Hi & _ & Hd). destruct Hinv as (Hs & Himg).
    split; [|rewrite Hi; exact Himg].
    destruct Hd as [-> | (l & ->)]; [exact Hs|].
    apply Forall_app. split; [exact Hs|]. constructor; [|constructor].
    split; reflexivity.
  - destruct (do_erase_spec is_stroke x y a) as (Hi & _ & Hd). destruct Hinv as (Hs & Himg).
    split; [apply Hd, Hs | rewrite Hi; exact Himg].
  - destruct (save_current_image_content file_path a) as (Hd & Hi).
    destruct Hinv as (Hs & Himg). split; [rewrite Hd; exact Hs | rewrite Hi; exact Himg].
Qed.

Lemma run_events_invariant (d : disk) (evs : list event) (a : app (F:=F)) :
  app_invariant d a -> app_invariant d (run_events d evs a).
Proof.
  revert a. induction evs as [|ev evs IH]; intros a Hinv; [exact Hinv|].
  apply IH, step_invariant, Hinv.
Qed.

Lemma initial_invariant (d : disk) (canvas_size : Z * Z) :
  app_invariant d (initial (F:=F) canvas_size).
Proof. split; [constructor | intros img H; discriminate H]. Qed.

(** The loop of [save_current_image] over strokes. *)
Lemma burn_strokes (ds : list (drawing (F:=F))) :
  Forall is_stroke ds ->
  forall im : image,
    fold_left burn ds im
    = Image (pixels_of im) (size im) (painted im ++ map stroke_line ds).
Proof.
  induction 1 as [|d ds Hd Hds IH]; intros im; simpl.
  - rewrite app_nil_r. destruct im; reflexivity.
  - rewrite IH. destruct d as [[coords dtype] options].
    destruct Hd as (Ht & Ho). simpl in Ht, Ho. subst dtype options.
    unfold burn, paint, stroke_line. simpl. rewrite <- app_assoc. reflexivity.
Qed.

Lemma draw_boxes_no_lines (boxes : list box) :
  forall im im' : image (F:=F),
    draw_boxes boxes im = Ok im' ->
    filter is_line_op (painted im) = [] ->
    filter is_line_op (painted im') = []
    /\ pixels_of im' = pixels_of im /\ size im' = size im.
Proof.
  induction boxes as [|b boxes IH]; intros im im' H Hno; simpl in H.
  - inversion H; subst. auto.
  - destruct (draw_box b) as [ops|] eqn:Eb; [|discriminate].
    apply IH in H.
    + simpl in H. exact H.
    + simpl. rewrite filter_app, Hno. simpl.
      unfold draw_box in Eb. destruct (label b); try discriminate.
      inversion Eb; subst. reflexivity.
Qed.

Lemma baked_no_lines (d : disk) (img : image (F:=F)) :
  baked_by d img -> filter is_line_op (painted img) = [].
Proof.
  intros (ip & lp & cn & sz & Ho & Hd). unfold draw_bounding_boxes in Hd.
  rewrite Ho in Hd.
  destruct (draw_boxes _ _) as [im|] eqn:E; [|discriminate].
  inversion Hd; subst. apply (draw_boxes_no_lines _ _ E). reflexivity.
Qed.

End SaveFacts.



(* ================================================================== *)
(** * More of the normalizer *)

Lemma for_each_stops A (body : A -> result (option box)) pre bad post acc acc' e :
  for_each body pre acc = (acc', None) ->
  body bad = Raise e ->
  for_each body (pre ++ bad :: post) acc = (acc', Some e).
Proof.
  intros Hpre Hbad. rewrite for_each_app, Hpre. simpl. rewrite Hbad. reflexivity.
Qed.

Lemma for_each_length A (body : A -> result (option box)) items :
  forall acc,
    (List.length (fst (for_each body items acc))
     <= List.length acc + List.length items)%nat.
Proof.
  induction items as [|a items IH]; intros acc; simpl; [lia|].
  destruct (body a) as [[b|]|e]; simpl.
  - specialize (IH (acc ++ [b])). rewrite length_app in IH. simpl in IH. lia.
  - specialize (IH acc). lia.
  - lia.
Qed.

Lemma findall_app tag t x pre post :
  findall tag (Element t x (pre ++ post))
  = findall tag (Element t x pre) ++ findall tag (Element t x post).
Proof. unfold findall. simpl. apply filter_app. Qed.

(** X1. An XML [object] without a [bndbox] child contributes nothing:
    the file parses exactly as it would without that element, boxes,
    printed lines and all. *)
Theorem xml_object_without_bndbox_is_skipped :
  forall (w w' : world) (path : string) (W H : Z) (cn : option (list string))
         (tag : string) (text : option string) (pre post : list xml) (obj : xml),
    file_extension path = ".xml" ->
    find "bndbox" obj = None ->
    ET_parse w path = Ok (Element tag text (pre ++ obj :: post)) ->
    ET_parse w' path = Ok (Element tag text (pre ++ post)) ->
    parse_annotations w path W H cn = parse_annotations w' path W H cn.
Proof.
  intros w w' path W H cn tag text pre post obj Hext Hno Hw Hw'.
  unfold parse_annotations, try_block. rewrite Hext. simpl.
  unfold parse_xml. rewrite Hw, Hw'.
  assert (Hskip : xml_object obj = Ok None).
  { unfold xml_object. rewrite Hno. reflexivity. }
  replace (for_each xml_object (findall "object" (Element tag text (pre ++ obj :: post))) [])
    with (for_each xml_object (findall "object" (Element tag text (pre ++ post))) []);
    [reflexivity|].
  rewrite !findall_app. unfold findall at 2 4. simpl.
  destruct (tag_of obj =? "object")%string; [|reflexivity].
  symmetry. apply for_each_skip, Hskip.
Qed.

Lemma xml_object_without_bndbox_is_skipped_witness :
  let car := Element "object" None
               [Element "name" (Some "car") [];
                Element "bndbox" None
                  [Element "xmin" (Some "12.9") []; Element "ymin" (Some "7") [];
                   Element "xmax" (Some "99.5") []; Element "ymax" (Some "80") []]] in
  let bare := Element "object" None [Element "name" (Some "ghost") []] in
  let w := World (fun _ => Raise JSONDecodeError)
                 (fun _ => Ok (Element "annotation" None [bare; car]))
                 (fun _ => Raise FileNotFoundError) in
  let w' := World (fun _ => Raise JSONDecodeError)
                  (fun _ => Ok (Element "annotation" None [car]))
                  (fun _ => Raise FileNotFoundError) in
  parse_annotations w "a.xml" 640 480 None = parse_annotations w' "a.xml" 640 480 None
  /\ parse_annotations w "a.xml" 640 480 None
     = Run [Box (JStr "car") 12 7 99 80] [] None.
Proof.
  intros car bare w w'. split; [|vm_compute; reflexivity].
  apply (@xml_object_without_bndbox_is_skipped w w' "a.xml" 640 480 None
           "annotation" None [] [car] bare); reflexivity.
Defined.





(** X4. Of a custom-JSON file only the first element of the outer array
    is read: whatever follows it, other images' annotations or anything
    else, has no effect on the result. *)
Theorem json_only_first_element_is_read :
  forall (w w' : world) (path : string) (W H : Z) (cn : option (list string))
         (first : json) (rest : list json),
    file_extension path = ".json" ->
    json_load w path = Ok (JList (first :: rest)) ->
    json_load w' path = Ok (JList [first]) ->
    parse_annotations w path W H cn = parse_annotations w' path W H cn.
Proof.
  intros w w' path W H cn first rest Hext Hw Hw'.
  unfold parse_annotations, try_block. rewrite Hext. simpl.
  unfold parse_json. rewrite Hw, Hw'. reflexivity.
Qed.

Lemma json_only_first_element_is_read_witness :
  let second := JDict [("annotations",
                        JList [entry "Marking" (JInt 1) (JInt 2) (JInt 3) (JInt 4)])] in
  let w := World (fun _ => Ok (JList [JDict [("annotations",
                     JList [entry "Weight" (JInt 10) (JInt 20) (JInt 30) (JInt 40)])];
                     second]))
                 (fun _ => Raise ParseError) (fun _ => Raise FileNotFoundError) in
  let w' := World (fun _ => Ok example_1)
                  (fun _ => Raise ParseError) (fun _ => Raise FileNotFoundError) in
  parse_annotations w "a.json" 640 480 None = parse_annotations w' "a.json" 640 480 None
  /\ annotations (parse_annotations w "a.json" 640 480 None)
     = [Box (JStr "Weight") 10 20 40 60].
Proof.
  intros second w w'. split; [|vm_compute; reflexivity].
  apply (@json_only_first_element_is_read w w' "a.json" 640 480 None
           (JDict [("annotations",
                    JList [entry "Weight" (JInt 10) (JInt 20) (JInt 30) (JInt 40)])])
           [second]); reflexivity.
Defined.

(** X5. A JSON document of the wrong shape (empty or falsy, not a list,
    or a list whose first object has no [annotations] key) is no error:
    the result is the empty list and the one warning of line 52, and no
    [except] clause runs. *)
Theorem json_wrong_shape_warns :
  forall (w : world) (path : string) (W H : Z) (cn : option (list string))
         (annotations_data : json),
    file_extension path = ".json" ->
    json_load w path = Ok annotations_data ->
    shape_mismatch annotations_data ->
    parse_annotations w path W H cn = Run [] [WarnJsonStructure path] None
    /\ raised (try_block w path W H cn) = None.
Proof.
  intros w path W H cn data Hext Hw Hm.
  assert (Hs : json_shape_ok data = Ok false).
  { unfold json_shape_ok. destruct Hm as [Hf | [Hnl | (d & rest & -> & Hd)]].
    - rewrite Hf. reflexivity.
    - destruct (truthy data); [|reflexivity].
      destruct data as [| | | | |l|]; try reflexivity.
      exfalso. apply (Hnl l). reflexivity.
    - simpl. rewrite Hd. reflexivity. }
  unfold parse_annotations, try_block. rewrite Hext. simpl.
  unfold parse_json. rewrite Hw, Hs. simpl. split; reflexivity.
Qed.

Lemma json_wrong_shape_warns_witness :
  let w := World (fun _ => Ok (JDict [("annotations", JList [])]))
                 (fun _ => Raise ParseError) (fun _ => Raise FileNotFoundError) in
  parse_annotations w "a.json" 640 480 None = Run [] [WarnJsonStructure "a.json"] None.
Proof.
  intros w.
  apply (@json_wrong_shape_warns w "a.json" 640 480 None
           (JDict [("annotations", JList [])]) eq_refl eq_refl).
  right. left. intros l. discriminate.
Defined.

(** X6. The list holds at most one box per entry of the source: per
    line of a YOLO file, per [object] child of an XML root, per element
    of the [annotations] list of a JSON file. *)
Theorem at_most_one_box_per_entry :
  forall (w : world) (path : string) (W H : Z) (cn : option (list string)),
    (forall text, file_extension path = ".txt" -> read_text w path = Ok text ->
       (List.length (annotations (parse_annotations w path W H cn))
        <= List.length (file_lines text))%nat)
    /\ (forall root, file_extension path = ".xml" -> ET_parse w path = Ok root ->
       (List.length (annotations (parse_annotations w path W H cn))
        <= List.length (findall "object" root))%nat)
    /\ (forall d rest entries, file_extension path = ".json" ->
       json_load w path = Ok (JList (JDict d :: rest)) ->
       dict_get "annotations" d = JList entries ->
       (List.length (annotations (parse_annotations w path W H cn))
        <= List.length entries)%nat).
Proof.
  intros w path W H cn.
  assert (Ha : annotations (parse_annotations w path W H cn)
               = annotations (try_block w path W H cn)).
  { unfold parse_annotations.
    destruct (raised (try_block w path W H cn)); reflexivity. }
  rewrite Ha. unfold try_block.
  split; [|split].
  - intros text Hext Hw. rewrite Hext. simpl. unfold parse_yolo. rewrite Hw.
    pose proof (for_each_length (yolo_line W H cn) (file_lines text) []) as L.
    destruct (for_each _ _ _) as [acc r]. simpl in *. exact L.
  - intros root Hext Hw. rewrite Hext. simpl. unfold parse_xml. rewrite Hw.
    pose proof (for_each_length xml_object (findall "object" root) []) as L.
    destruct (for_each _ _ _) as [acc r]. simpl in *. exact L.
  - intros d rest entries Hext Hw Hd. rewrite Hext. simpl.
    unfold parse_json. rewrite Hw. simpl.
    destruct (dict_has "annotations" d) eqn:Hh; simpl; [|lia].
    rewrite ?Hh, Hd. simpl.
    pose proof (for_each_length json_entry entries []) as L.
    destruct (for_each _ _ _) as [acc r]. simpl in *. exact L.
Qed.

Lemma at_most_one_box_per_entry_witness :
  (List.length (annotations
      (parse_annotations (one_text_file "0 0.5 0.5 0.2 0.2") "a.txt" 100 100 None))
   <= 1)%nat.
Proof.
  apply (proj1 (at_most_one_box_per_entry
                  (one_text_file "0 0.5 0.5 0.2 0.2") "a.txt" 100 100 None)
               "0 0.5 0.5 0.2 0.2" eq_refl eq_refl).
Defined.

(* ================================================================== *)
(** * [draw_bounding_boxes] and the loaders *)

Section DrawFacts.
Context {F : Type}.

Lemma draw_box_ok (b : box) :
  string_label b ->
  exists ops : list (draw_op (F:=F)),
    draw_box b = Ok ops /\ List.length ops = 2%nat
    /\ rectangles ops = [corners b] /\ texts ops = label_text b
    /\ filter is_line_op ops = [].
Proof.
  intros (s & Hs). unfold draw_box, label_text. rewrite Hs.
  eexists. split; [reflexivity|]. repeat split.
Qed.

Lemma draw_box_fails (b : box) :
  ~ string_label b -> exists e, draw_box (F:=F) b = Raise e.
Proof.
  intros Hn. unfold draw_box.
  destruct (label b) eqn:E; try (eexists; reflexivity).
  exfalso. apply Hn. eexists. exact E.
Qed.

Lemma rectangles_app (o1 o2 : list (draw_op (F:=F))) :
  rectangles (o1 ++ o2) = rectangles o1 ++ rectangles o2.
Proof. unfold rectangles. apply flat_map_app. Qed.

Lemma texts_app (o1 o2 : list (draw_op (F:=F))) :
  texts (o1 ++ o2) = texts o1 ++ texts o2.
Proof. unfold texts. apply flat_map_app. Qed.

Lemma draw_boxes_ok (boxes : list box) :
  Forall string_label boxes ->
  forall im : image (F:=F),
  exists im',
    draw_boxes boxes im = Ok im'
    /\ pixels_of im' = pixels_of im /\ size im' = size im
    /\ List.length (painted im') = (List.length (painted im) + 2 * List.length boxes)%nat
    /\ rectangles (painted im') = rectangles (painted im) ++ map corners boxes
    /\ texts (painted im') = texts (painted im) ++ flat_map label_text boxes.
Proof.
  induction 1 as [|b boxes Hb Hbs IH]; intros im; simpl.
  - exists im. rewrite !app_nil_r. repeat split. lia.
  - destruct (draw_box_ok Hb) as (ops & -> & Hl & Hr & Ht & _).
    destruct (IH (Image (pixels_of im) (size im) (painted im ++ ops)))
      as (im' & -> & Hp & Hs & Hlen & Hrec & Htx).
    exists im'. simpl in *. split; [reflexivity|].
    split; [exact Hp|]. split; [exact Hs|].
    rewrite length_app in Hlen. rewrite rectangles_app in Hrec. rewrite texts_app in Htx.
    rewrite Hr in Hrec. rewrite Ht in Htx.
    split; [lia|]. split.
    + rewrite Hrec, <- app_assoc. reflexivity.
    + rewrite Htx, <- app_assoc. reflexivity.
Qed.

Lemma draw_boxes_fails (boxes : list box) :
  Exists (fun b => ~ string_label b) boxes ->
  forall im : image (F:=F), exists e, draw_boxes boxes im = Raise e.
Proof.
  induction boxes as [|b boxes IH]; intros Hex im; [inversion Hex|].
  simpl. destruct (draw_box (F:=F) b) as [ops|e] eqn:E; [|eexists; reflexivity].
  inversion Hex as [? ? Hn | ? ? Hrest]; subst.
  - destruct (draw_box_fails Hn) as (e & He). rewrite He in E. discriminate.
  - apply IH, Hrest.
Qed.

Lemma string_label_dec (b : box) : {string_label b} + {~ string_label b}.
Proof.
  unfold string_label. destruct (label b) eqn:E;
    try (right; intros (s & Hs); discriminate).
  left. eexists. reflexivity.
Qed.

Lemma all_or_some_label (boxes : list box) :
  Forall string_label boxes \/ Exists (fun b => ~ string_label b) boxes.
Proof.
  induction boxes as [|b boxes IH]; [left; constructor|].
  destruct (string_label_dec b) as [Hb|Hb]; [|right; constructor; exact Hb].
  destruct IH as [IH|IH]; [left; constructor; assumption | right; constructor 2; exact IH].
Qed.

End DrawFacts.



(* ================================================================== *)
(** * The states the events lead to *)

Section SessionFacts.
Context {F : Type} {NumF : Number F}.

Lemma same_session_refl (a : app (F:=F)) : same_session a a.
Proof. repeat split. Qed.

Lemma same_session_trans (a b c : app (F:=F)) :
  same_session a b -> same_session b c -> same_session a c.
Proof.
  unfold same_session. intros (H1 & H2 & H3 & H4 & H5) (K1 & K2 & K3 & K4 & K5).
  repeat split; congruence.
Qed.

Lemma max0_zero_or_positive (v : F) : zero_or_positive (max0 v).
Proof.
  unfold max0, zero_or_positive. destruct (nltb (of_int 0) v) eqn:E; auto.
Qed.

Lemma redraw_canvas_session (a : app (F:=F)) :
  same_session a (fst (redraw_canvas a))
  /\ (placed a -> placed (fst (redraw_canvas a))).
Proof.
  unfold redraw_canvas, mbind, read, lift, ret, assign.
  destruct (original_image_pil a) as [img|] eqn:E; simpl;
    [|split; [apply same_session_refl | auto]].
  destruct (trunc _); simpl; [|split; [apply same_session_refl | auto]].
  destruct (trunc _); simpl; [|split; [apply same_session_refl | auto]].
  split; [repeat split; assumption|].
  intros _. split; apply max0_zero_or_positive.
Qed.

Lemma fit_image_to_canvas_session (a : app (F:=F)) :
  same_session a (fst (fit_image_to_canvas a))
  /\ (placed a -> placed (fst (fit_image_to_canvas a))).
Proof.
  unfold fit_image_to_canvas, mbind, read.
  destruct (original_image_pil a) as [img|] eqn:E; simpl;
    [|split; [apply same_session_refl | auto]].
  destruct (canvas_size a) as [cw ch]. destruct (size img) as [iw ih].
  destruct (_ || _); simpl; [split; [apply same_session_refl | auto]|].
  unfold assign. simpl.
  match goal with |- context [redraw_canvas ?s] =>
    destruct (redraw_canvas_session s) as (Hs & Hp)
  end.
  split.
  - eapply same_session_trans; [|exact Hs]. repeat split; assumption.
  - intros H. apply Hp. exact H.
Qed.

Lemma view_event_session (d : disk) (ev : event) (a : app (F:=F)) :
  is_view_event ev = true ->
  same_session a (step d a ev) /\ (placed a -> placed (step d a ev)).
Proof.
  destruct ev as [i l c | ent | chosen | sz | origin | e | x y | x y | | x y | file_path];
    try discriminate; intros _; unfold step; simpl.
  - unfold mbind, assign. simpl.
    match goal with |- context [fit_image_to_canvas ?s] =>
      destruct (fit_image_to_canvas_session s) as (Hs & Hp)
    end.
    split; [eapply same_session_trans; [|exact Hs]; repeat split | intros H; apply Hp, H].
  - unfold assign. simpl. split; [repeat split | auto].
  - unfold on_mouse_wheel_zoom, mbind, read, assign. simpl.
    destruct (original_image_pil a) eqn:E; simpl; [|split; [apply same_session_refl | auto]].
    match goal with |- context [redraw_canvas ?s] =>
      destruct (redraw_canvas_session s) as (Hs & Hp)
    end.
    split; [eapply same_session_trans; [|exact Hs]; repeat split; assumption
           | intros H; apply Hp, H].
Qed.

Lemma invariant_same_session (a a' : app (F:=F)) :
  same_session a a' -> placed a' -> session_invariant a -> session_invariant a'.
Proof.
  unfold same_session, session_invariant.
  intros (H1 & H2 & H3 & H4 & H5) Hp (I1 & I2 & _ & I4).
  rewrite H1, H2, H3, H4, H5. auto.
Qed.

Lemma point_list_start (x y : F) : point_list [x; y].
Proof. split; [discriminate | reflexivity]. Qed.

Lemma point_list_extend (l : list F) (x y : F) :
  point_list l -> point_list (l ++ [x; y]).
Proof.
  intros (Hne & Hev). split.
  - destruct l; [congruence | discriminate].
  - rewrite length_app. simpl. rewrite Nat.add_comm. simpl. exact Hev.
Qed.

Lemma display_image_on_canvas_session (im : image) (a : app (F:=F)) :
  let a' := fst (display_image_on_canvas im a) in
  original_image_pil a' = Some im
  /\ drawings_on_canvas a' = drawings_on_canvas a
  /\ drawing_active a' = drawing_active a
  /\ current_drawing_coords_unscaled a' = current_drawing_coords_unscaled a
  /\ saved a' = saved a
  /\ (placed a -> placed a').
Proof.
  unfold display_image_on_canvas, mbind, assign. simpl.
  destruct (fit_image_to_canvas_session (set_image im a))
    as ((H1 & H2 & H3 & H4 & H5) & Hp).
  rewrite H1, H2, H3, H4, H5. repeat (split; [reflexivity|]). exact Hp.
Qed.

Lemma load_and_show_loaded (d : disk) (img_path label_path : string)
      (class_names : option (list string)) (a : app (F:=F)) :
  let a' := fst (load_and_show d img_path label_path class_names a) in
  loaded a a' (annotated_image d img_path label_path class_names)
  /\ drawing_active a' = drawing_active a
  /\ current_drawing_coords_unscaled a' = current_drawing_coords_unscaled a
  /\ (placed a -> placed a').
Proof.
  unfold load_and_show, annotated_image, caught, mbind, lift, assign, ret. simpl.
  destruct (Image_open d img_path) as [sz|] eqn:Eo; simpl;
    [|split; [reflexivity | auto]].
  destruct (draw_bounding_boxes d img_path _) as [im|] eqn:Ed; simpl;
    [|split; [reflexivity | auto]].
  destruct (display_image_on_canvas_session im (set_drawings [] a))
    as (H1 & H2 & H3 & H4 & H5 & Hp).
  split; [split; [exact H1 | split; [exact H2 | exact H5]]|].
  split; [exact H3|]. split; [exact H4 | exact Hp].
Qed.

Lemma load_and_show_session (d : disk) (img_path label_path : string)
      (class_names : option (list string)) (a : app (F:=F)) :
  session_invariant a ->
  session_invariant (fst (load_and_show d img_path label_path class_names a)).
Proof.
  intros Hinv.
  destruct (load_and_show_loaded d img_path label_path class_names a)
    as (Hl & Ha & Hc & Hp).
  destruct (annotated_image d img_path label_path class_names) as [im|];
    unfold loaded in Hl; [|rewrite Hl; exact Hinv].
  destruct Hl as (Hi & Hd & Hs). destruct Hinv as (I1 & I2 & I3 & I4).
  split; [rewrite Hd; constructor|].
  split; [rewrite Hc; exact I2|].
  split; [apply Hp, I3|].
  rewrite Hi. discriminate.
Qed.

(** Every handler keeps the invariant. *)
Lemma step_session (d : disk) (a : app (F:=F)) (ev : event) :
  session_invariant a -> session_invariant (step d a ev).
Proof.
  intros Hinv.
  destruct (is_view_event ev) eqn:Ev.
  { destruct (view_event_session d ev a Ev) as (Hs & Hp).
    apply (invariant_same_session Hs); [apply Hp; apply Hinv | exact Hinv]. }
  clear Ev. pose proof Hinv as (I1 & I2 & I3 & I4). unfold step.
  destruct ev as [i l c | ent | chosen | sz | origin | e | x y | x y | | x y | file_path];
    simpl.
  - unfold process_single_image.
    destruct (_ || _); [exact Hinv|].
    apply load_and_show_session. exact Hinv.
  - unfold show_current_automated_image. destruct ent as [[ip lp] cn].
    apply load_and_show_session. exact Hinv.
  - unfold browse. destruct (chosen =? "")%string; simpl; [exact Hinv|].
    split; [constructor|]. split; [exact I2|]. split; [exact I3|].
    intros H. destruct (I4 H) as (_ & Hs & Ha & Hc). auto.
  - unfold mbind, assign. simpl.
    match goal with |- context [fit_image_to_canvas ?s] =>
      destruct (fit_image_to_canvas_session s) as (Hs & Hp)
    end.
    apply (invariant_same_session (a:=a)); [| apply Hp; exact I3 | exact Hinv].
    eapply same_session_trans; [|exact Hs]. repeat split.
  - exact Hinv.
  - apply (invariant_same_session (a:=a));
      [apply (view_event_session d (MouseWheel e) a eq_refl)
      |apply (view_event_session d (MouseWheel e) a eq_refl); exact I3
      |exact Hinv].
  - unfold start_draw, _canvas_to_image_coords, mbind, read, assign. simpl.
    destruct (original_image_pil a) eqn:Ei; simpl; [|exact Hinv].
    destruct (to_image_space _ _ _ _ _) as [p|]; simpl.
    + split; [exact I1|]. split; [|split; [exact I3 | intros H; simpl in H; congruence]].
      intros l H. inversion H. apply point_list_start.
    + split; [exact I1|]. split; [exact I2|]. split; [exact I3|].
      intros H; simpl in H; congruence.
  - unfold do_draw, current_coords, _canvas_to_image_coords, mbind, read, assign, ret, throw.
    simpl.
    destruct (drawing_active a) eqn:Ea; simpl; [|exact Hinv].
    destruct (to_image_space _ _ _ _ _) as [p|]; simpl; [|exact Hinv].
    destruct (current_drawing_coords_unscaled a) as [l|] eqn:Ec; simpl;
      [|exact Hinv].
    match goal with |- context [redraw_canvas ?s] =>
      destruct (redraw_canvas_session s) as (Hs & Hp)
    end.
    apply (invariant_same_session Hs); [apply Hp; exact I3|].
    split; [exact I1|]. split; [|split; [exact I3|]]; simpl.
    + intros l' H. inversion H. apply point_list_extend, I2. reflexivity.
    + intros H. destruct (I4 H) as (_ & _ & Hf & _). congruence.
  - unfold end_draw, current_coords, mbind, read, assign, ret, throw. simpl.
    destruct (drawing_active a) eqn:Ea; simpl; [|exact Hinv].
    destruct (current_drawing_coords_unscaled a) as [l|] eqn:Ec; simpl;
      [|exact Hinv].
    match goal with |- context [redraw_canvas ?s] =>
      destruct (redraw_canvas_session s) as (Hs & Hp)
    end.
    apply (invariant_same_session Hs); [apply Hp; exact I3|].
    split; simpl.
    + apply Forall_app. split; [exact I1|]. constructor; [|constructor].
      simpl. apply I2. reflexivity.
    + split; [rewrite Ec; exact I2|]. split; [exact I3|].
      intros H. destruct (I4 H) as (_ & _ & Hf & _). congruence.
  - unfold do_erase, _canvas_to_image_coords, mbind, read, lift, assign, ret. simpl.
    destruct (original_image_pil a) eqn:Ei; simpl; [|exact Hinv].
    destruct (to_image_space _ _ _ _ _) as [p|]; simpl; [|exact Hinv].
    destruct (truediv _ _) as [tol|]; simpl; [|exact Hinv].
    destruct (keep_far _ _ _ _) as [kept|] eqn:Ek; simpl; [|exact Hinv].
    assert (Hk : session_invariant (set_drawings kept a)).
    { split; simpl.
      - apply (@keep_far_sublist F NumF _ _ _ _ _ _ Ek I1).
      - split; [exact I2|]. split; [exact I3|]. intros H; simpl in H; congruence. }
    destruct (_ <? _)%nat; simpl; [|exact Hk].
    match goal with |- context [redraw_canvas ?s] =>
      destruct (redraw_canvas_session s) as (Hs & Hp)
    end.
    apply (invariant_same_session Hs); [apply Hp; exact I3 | exact Hk].
  - unfold save_current_image, mbind, read, assign, ret. simpl.
    destruct (original_image_pil a) eqn:Ei; simpl; [|exact Hinv].
    destruct (file_path =? "")%string; simpl; [exact Hinv|].
    split; [exact I1|]. split; [exact I2|]. split; [exact I3|].
    intros H; simpl in H; congruence.
Qed.

Lemma run_events_session (d : disk) (evs : list event) (a : app (F:=F)) :
  session_invariant a -> session_invariant (run_events d evs a).
Proof.
  revert a. induction evs as [|ev evs IH]; intros a Hinv; [exact Hinv|].
  apply IH, step_session, Hinv.
Qed.

Lemma initial_session (canvas_size : Z * Z) :
  session_invariant (initial (F:=F) canvas_size).
Proof.
  split; [constructor|]. split; [intros l H; discriminate H|].
  split; [split; left; reflexivity|]. intros _. repeat split.
Qed.

Lemma point_lists_even (ds : list (drawing (F:=F))) :
  Forall (fun s : drawing => point_list (fst (fst s))) ds -> Forall even_coords ds.
Proof.
  intros H. eapply Forall_impl; [|exact H]. intros s (_ & He). exact He.
Qed.

End SessionFacts.

(** X8. Whatever the events, every stored stroke is a flat list of at
    least one point (an even, non-zero number of coordinates).  So the
    comprehension of [do_erase], which reads [drawing[0][i+1]] at every
    even [i], never raises [IndexError]: it returns the strokes that
    have no point near the pointer. *)
Theorem stored_strokes_are_point_lists :
  forall (F : Type) (NumF : Number F) (d : disk) (evs : list event)
         (canvas : Z * Z),
    let a := run_events d evs (initial (F:=F) canvas) in
    Forall (fun s : drawing => point_list (fst (fst s))) (drawings_on_canvas a)
    /\ forall erase_x erase_y tolerance : F,
         keep_far (drawings_on_canvas a) erase_x erase_y tolerance
         = Ok (filter (fun s => negb (stroke_hit erase_x erase_y tolerance s))
                      (drawings_on_canvas a)).
Proof.
  intros F NumF d evs canvas a.
  destruct (@run_events_session F NumF d evs _ (@initial_session F NumF canvas))
    as (Hs & _).
  fold a in Hs. split; [exact Hs|].
  intros ex ey tol. apply keep_far_filter, point_lists_even, Hs.
Qed.

(** X9. Until a load has shown an image there is no stroke, no stroke
    being drawn and no saved file, whatever the user does; and an image
    once shown is never taken away again, only replaced. *)
Theorem nothing_happens_without_an_image :
  forall (F : Type) (NumF : Number F) (d : disk) (evs more : list event)
         (canvas : Z * Z),
    let a := run_events d evs (initial (F:=F) canvas) in
    (original_image_pil a = None ->
       drawings_on_canvas a = [] /\ saved a = [] /\ drawing_active a = false)
    /\ (original_image_pil a <> None ->
        original_image_pil (run_events d more a) <> None).
Proof.
  intros F NumF d evs more canvas a. split.
  - intros H.
    destruct (@run_events_session F NumF d evs _ (@initial_session F NumF canvas))
      as (_ & _ & _ & H4).
    destruct (H4 H) as (Hd & Hs & Ha & _). auto.
  - generalize a. clear a. induction more as [|ev more IH]; intros a Ha; [exact Ha|].
    simpl. apply IH. unfold step.
    destruct (is_view_event ev) eqn:Ev.
    { destruct (@view_event_session F NumF d ev a Ev) as ((Hi & _) & _).
      unfold step in Hi. rewrite Hi. exact Ha. }
    destruct ev as [i l c | ent | chosen | sz | origin | e | x y | x y | | x y | file_path];
      try discriminate; simpl.
    + unfold process_single_image. destruct (_ || _); [exact Ha|].
      destruct (@load_and_show_loaded F NumF d i l
                  (if (c =? "")%string then None else Some (load_yolo_classes d c)) a)
        as (Hl & _).
      destruct (annotated_image _ _ _ _); unfold loaded in Hl;
        [destruct Hl as (-> & _); discriminate | rewrite Hl; exact Ha].
    + unfold show_current_automated_image. destruct ent as [[ip lp] cn].
      destruct (@load_and_show_loaded F NumF d ip lp (Some cn) a) as (Hl & _).
      destruct (annotated_image _ _ _ _); unfold loaded in Hl;
        [destruct Hl as (-> & _); discriminate | rewrite Hl; exact Ha].
    + unfold browse. destruct (chosen =? "")%string; exact Ha.
    + destruct (@start_draw_content F NumF x y a) as (_ & -> & _). exact Ha.
    + destruct (@do_draw_content F NumF x y a) as (_ & -> & _). exact Ha.
    + destruct (@end_draw_spec F NumF a) as (-> & _). exact Ha.
    + destruct (@do_erase_spec F NumF (fun _ => True) x y a) as (-> & _). exact Ha.
    + destruct (@save_current_image_content F file_path a) as (_ & ->). exact Ha.
Qed.

Lemma nothing_happens_without_an_image_witness :
  let a := run_events plain_disk
             [StartDraw 10 10; DoDraw 20 20; EndDraw; Save "out.png";
              MouseWheel wheel_up]
             (initial (F:=float) (800, 600)) in
  original_image_pil a = None
  /\ drawings_on_canvas a = [] /\ saved a = [] /\ drawing_active a = false.
Proof.
  intros a.
  assert (H : original_image_pil a = None) by (vm_compute; reflexivity).
  split; [exact H|].
  exact (proj1 (@nothing_happens_without_an_image float binary64 plain_disk
                  [StartDraw 10 10; DoDraw 20 20; EndDraw; Save "out.png";
                   MouseWheel wheel_up] [] (800, 600)) H).
Defined.

(** X10. Zooming, panning and resizing, in any number and order, change
    neither the image, nor the strokes, nor the stroke being drawn, nor
    the saved files: they only move the view. *)
Theorem view_events_keep_the_session :
  forall (F : Type) (NumF : Number F) (d : disk) (evs : list event)
         (a : app (F:=F)),
    forallb is_view_event evs = true ->
    same_session a (run_events d evs a).
Proof.
  intros F NumF d evs. induction evs as [|ev evs IH]; intros a H.
  - apply same_session_refl.
  - simpl in H. apply andb_prop in H. destruct H as (Hev & Hevs).
    simpl. eapply same_session_trans; [|apply IH, Hevs].
    apply (@view_event_session F NumF d ev a Hev).
Qed.

Lemma view_events_keep_the_session_witness :
  let a := run_events plain_disk
             [ProcessSingleImage "a.png" "a.txt" "";
              StartDraw 104 96; DoDraw 180 180; EndDraw]
             (initial (F:=float) (800, 600)) in
  drawings_on_canvas
    (run_events plain_disk
       [MouseWheel wheel_up; Configure (1024, 768); View (30, 40)%float;
        MouseWheel button_5] a)
  = drawings_on_canvas a.
Proof.
  intros a.
  exact (proj1 (proj2 (@view_events_keep_the_session float binary64 plain_disk
                  [MouseWheel wheel_up; Configure (1024, 768); View (30, 40)%float;
                   MouseWheel button_5] a eq_refl))).
Defined.

Lemma draw_bounding_boxes_some (F : Type) (d : disk) (image_path : string)
      (boxes : list box) (im : image (F:=F)) :
  draw_bounding_boxes d image_path boxes = Some im ->
  pixels_of im = image_path /\ Image_open d image_path = Ok (size im)
  /\ rectangles (painted im) = map corners boxes.
Proof.
  unfold draw_bounding_boxes.
  destruct (Image_open d image_path) as [sz|e] eqn:Eo; [|discriminate].
  destruct (all_or_some_label boxes) as [Hall|Hex].
  - destruct (@draw_boxes_ok F boxes Hall (Image image_path sz []))
      as (im' & -> & Hp & Hs & _ & Hr & _).
    intros E. inversion E; subst im. simpl in *. rewrite Hs. auto.
  - destruct (@draw_boxes_fails F boxes Hex (Image image_path sz [])) as (e & ->).
    discriminate.
Qed.



(* ================================================================== *)
(** * YOLO labels and class names *)

Lemma for_each_forall A (P : box -> Prop) (body : A -> result (option box)) items :
  (forall a b, body a = Ok (Some b) -> P b) ->
  forall acc, Forall P acc -> Forall P (fst (for_each body items acc)).
Proof.
  intros Hbody. induction items as [|a items IH]; intros acc Hacc; simpl; [exact Hacc|].
  destruct (body a) as [[b|]|e] eqn:E; simpl.
  - apply IH, Forall_app. split; [exact Hacc|]. constructor; [|constructor].
    apply (Hbody a b E).
  - apply IH, Hacc.
  - exact Hacc.
Qed.

Lemma yolo_line_string_label W H cn line b :
  yolo_line W H cn line = Ok (Some b) -> string_label b.
Proof.
  unfold yolo_line, bind. intros E.
  repeat match type of E with
         | context [match ?x with _ => _ end] => destruct x; try discriminate
         end.
  inversion E. eexists. reflexivity.
Qed.

Lemma parse_yolo_string_labels w path W H cn :
  Forall string_label (annotations (parse_yolo w path W H cn)).
Proof.
  unfold parse_yolo. destruct (read_text w path) as [text|e]; simpl; [|constructor].
  pose proof (@for_each_forall string string_label (yolo_line W H cn) (file_lines text)
                (@yolo_line_string_label W H cn) [] (Forall_nil _)) as Hf.
  destruct (for_each _ _ _) as [acc e]. exact Hf.
Qed.

Lemma parse_annotations_yolo_labels w path W H cn :
  file_extension path = ".txt" ->
  Forall string_label (annotations (parse_annotations w path W H cn)).
Proof.
  intros Hext.
  assert (Hr : annotations (parse_annotations w path W H cn)
               = annotations (parse_yolo w path W H cn)).
  { unfold parse_annotations, try_block. rewrite Hext.
    change (format_of ".txt") with Yolo. cbv iota.
    destruct (raised (parse_yolo w path W H cn)); reflexivity. }
  rewrite Hr. apply parse_yolo_string_labels.
Qed.



Section StripFacts.

Lemma lstrip_length (s : chars) : (List.length (lstrip s) <= List.length s)%nat.
Proof.
  induction s as [|c r IH]; simpl; [lia|]. destruct (is_space c); simpl; lia.
Qed.

Lemma lstrip_head (c : ascii) (r : chars) :
  is_space c = false -> lstrip (c :: r) = c :: r.
Proof. intros H. simpl. rewrite H. reflexivity. Qed.

Lemma lstrip_fixed_head (c : ascii) (r : chars) :
  lstrip (c :: r) = c :: r -> is_space c = false.
Proof.
  simpl. destruct (is_space c); [|reflexivity]. intros H.
  pose proof (lstrip_length r) as Hl. rewrite H in Hl. simpl in Hl. lia.
Qed.

Lemma lstrip_idem (s : chars) : lstrip (lstrip s) = lstrip s.
Proof.
  induction s as [|c r IH]; [reflexivity|]. simpl.
  destruct (is_space c) eqn:E; [exact IH|]. simpl. rewrite E. reflexivity.
Qed.

(** What [lstrip] drops is a prefix. *)
Lemma lstrip_suffix (s : chars) : exists p, s = p ++ lstrip s.
Proof.
  induction s as [|c r (p & IH)]; [exists []; reflexivity|]. simpl.
  destruct (is_space c).
  - exists (c :: p). simpl. rewrite <- IH. reflexivity.
  - exists []. reflexivity.
Qed.

Lemma strip_chars_fixed (w : chars) :
  lstrip w = w -> lstrip (rev w) = rev w -> strip_chars w = w.
Proof.
  intros H1 H2. unfold strip_chars. rewrite H1, H2. apply rev_involutive.
Qed.

Lemma strip_chars_ends (s : chars) :
  lstrip (strip_chars s) = strip_chars s
  /\ lstrip (rev (strip_chars s)) = rev (strip_chars s).
Proof.
  unfold strip_chars. set (t := lstrip s). set (u := lstrip (rev t)).
  split.
  - destruct (lstrip_suffix (rev t)) as (p & Hp). fold u in Hp.
    assert (Ht : t = rev u ++ rev p).
    { rewrite <- rev_app_distr, <- Hp, rev_involutive. reflexivity. }
    destruct (rev u) as [|c r] eqn:Eu; [reflexivity|].
    apply lstrip_head. apply (@lstrip_fixed_head c (r ++ rev p)).
    change (c :: r ++ rev p) with ((c :: r) ++ rev p). rewrite <- Ht.
    apply lstrip_idem.
  - rewrite rev_involutive. apply lstrip_idem.
Qed.

Lemma strip_chars_idem (s : chars) : strip_chars (strip_chars s) = strip_chars s.
Proof.
  destruct (strip_chars_ends s) as (H1 & H2). apply strip_chars_fixed; assumption.
Qed.

Lemma strip_idem (s : string) : strip (strip s) = strip s.
Proof.
  unfold strip. rewrite list_ascii_of_string_of_list_ascii, strip_chars_idem.
  reflexivity.
Qed.

End StripFacts.



(* ================================================================== *)
(** * Navigation *)

Section NavigationFacts.
Import PyOs Navigation.
Context {F : Type} {NumF : Number F}.

Lemma subscript_in_range A (l : list A) (i : Z) :
  0 <= i < Z.of_nat (List.length l) ->
  exists x, subscript l i = Ok x /\ nth_error l (Z.to_nat i) = Some x.
Proof.
  intros Hi. unfold subscript.
  destruct (i <? 0) eqn:E; [apply Z.ltb_lt in E; lia|]. rewrite E.
  destruct (nth_error l (Z.to_nat i)) as [x|] eqn:En; [eauto|].
  apply nth_error_None in En. lia.
Qed.

(** [show_current_automated_image] at an index of the list: it returns,
    the viewer is what the loader of the entry makes of it, and nothing
    else changes but the entry box. *)
Lemma show_current_spec (d : disk) (b : browser (F:=F)) (p : pair) :
  0 <= current_image_index b ->
  nth_error (image_files_for_auto b) (Z.to_nat (current_image_index b)) = Some p ->
  let b' := fst (show_current_automated_image d b) in
  snd (show_current_automated_image d b) = Ok tt
  /\ shows d p (viewer b) (viewer b')
  /\ current_image_index b' = current_image_index b
  /\ same_list b b'
  /\ (nav_entry_var b' = nav_entry_var b
      \/ nav_entry_var b' = str_of_int (current_image_index b + 1))
  /\ (annotated_image (F:=F) d (fst (fst p)) (snd (fst p)) (Some (snd p)) = None ->
      b' = b).
Proof.
  intros H0 Hn. unfold show_current_automated_image, shows, annotated_image.
  assert (Hs : subscript (image_files_for_auto b) (current_image_index b) = Ok p).
  { unfold subscript.
    destruct (current_image_index b <? 0) eqn:E; [apply Z.ltb_lt in E; lia|].
    rewrite E, Hn. reflexivity. }
  assert (Hm : forall (X : Type) (x y : X),
             match image_files_for_auto b with [] => x | _ :: _ => y end = y).
  { intros X x y. destruct (image_files_for_auto b); [|reflexivity].
    destruct (Z.to_nat (current_image_index b)); discriminate. }
  rewrite Hm, Hs. destruct p as [[ip lp] cn]. cbn [fst snd].
  unfold Viewer.show_current_automated_image, load_and_show, caught, mbind, lift.
  destruct (Image_open d ip) as [sz|e]; simpl; [|repeat split; auto].
  destruct (draw_bounding_boxes d ip _) as [im|]; simpl; [|repeat split; auto].
  destruct (display_image_on_canvas im (set_drawings [] (viewer b))) as [v [u|e]];
    simpl; repeat split; auto; discriminate.
Qed.

Lemma show_current_empty (d : disk) (b : browser (F:=F)) :
  image_files_for_auto b = [] -> show_current_automated_image d b = (b, Ok tt).
Proof. intros H. unfold show_current_automated_image. rewrite H. reflexivity. Qed.

Lemma index_in_range_entry (b : browser (F:=F)) :
  index_in_range b -> image_files_for_auto b <> [] ->
  exists p, nth_error (image_files_for_auto b) (Z.to_nat (current_image_index b)) = Some p.
Proof.
  intros (H0 & H1) Hne. specialize (H1 Hne).
  destruct (nth_error _ _) as [p|] eqn:E; [eauto|].
  apply nth_error_None in E. lia.
Qed.

(** Showing the entry at an index in range keeps the index and the list. *)
Lemma show_current_in_range (d : disk) (b : browser (F:=F)) :
  index_in_range b ->
  let b' := fst (show_current_automated_image d b) in
  index_in_range b'
  /\ current_image_index b' = current_image_index b
  /\ same_list b b'
  /\ snd (show_current_automated_image d b) = Ok tt.
Proof.
  intros Hr. destruct (image_files_for_auto b) as [|p0 rest] eqn:El.
  - rewrite (show_current_empty d b El). simpl. repeat split; try apply Hr.
  - assert (Hne : image_files_for_auto b <> []) by (rewrite El; discriminate).
    destruct (index_in_range_entry Hr Hne) as (p & Hp).
    destruct (@show_current_spec d b p (proj1 Hr) Hp) as (Hs & _ & Hi & (Hl & Hd) & _ & _).
    split; [|repeat split; assumption].
    unfold index_in_range. rewrite Hi, Hl. exact Hr.
Qed.

Lemma set_index_in_range (b : browser (F:=F)) (i : Z) :
  0 <= i -> (image_files_for_auto b <> [] ->
             i < Z.of_nat (List.length (image_files_for_auto b))) ->
  index_in_range (set_index i b).
Proof. intros H0 H1. split; assumption. Qed.

Lemma go_to_image_in_range (d : disk) (b : browser (F:=F)) :
  index_in_range b -> index_in_range (fst (go_to_image d b)).
Proof.
  intros Hr. unfold go_to_image.
  destruct (image_files_for_auto b) as [|p0 rest] eqn:El; [exact Hr|].
  rewrite <- El.
  destruct (int_of_text (nav_entry_var b)) as [n|e].
  - destruct ((0 <=? n - 1) && (n - 1 <? _)) eqn:Ein.
    + apply andb_prop in Ein. destruct Ein as (E0 & E1).
      apply Z.leb_le in E0. apply Z.ltb_lt in E1.
      destruct (negb _).
      * destruct (@show_current_in_range d (set_index (n - 1) b)) as (Hr' & _ & _ & Hok).
        { apply set_index_in_range; [exact E0 | intros _; exact E1]. }
        destruct (show_current_automated_image d (set_index (n - 1) b)) as [b1 r1].
        simpl in Hr', Hok. subst r1. exact Hr'.
      * exact Hr.
    + exact Hr.
  - destruct e; exact Hr.
Qed.

Lemma start_automated_processing_in_range (d : disk) (t : tree) (root : string)
      (b : browser (F:=F)) :
  index_in_range b -> index_in_range (fst (start_automated_processing d t root b)).
Proof.
  intros Hr. unfold start_automated_processing.
  destruct (_ || _); [exact Hr|].
  destruct (negb (isdir t _) || negb (isdir t _)).
  - destruct (listdir t root) as [names|e]; [|exact Hr].
    destruct (pair_up _ _ _ _) as [|p ps] eqn:Ep.
    + split; [apply Hr | intros H; exfalso; apply H; reflexivity].
    + apply show_current_in_range. split; [reflexivity|]. intros _. simpl. lia.
  - destruct (listdir t _) as [names|e]; [|exact Hr].
    destruct (pair_up _ _ _ _) as [|p ps] eqn:Ep.
    + split; [apply Hr | intros H; exfalso; apply H; reflexivity].
    + apply show_current_in_range. split; [reflexivity|]. intros _. simpl. lia.
Qed.

Lemma after_in_range (d : disk) (t : tree) (b : browser (F:=F)) (c : command) :
  index_in_range b -> index_in_range (after d t b c).
Proof.
  intros Hr. unfold after. destruct c as [ev | text | | | | root]; simpl.
  - exact Hr.
  - exact Hr.
  - apply go_to_image_in_range, Hr.
  - unfold show_next_image.
    destruct (_ <? _) eqn:E; [|exact Hr]. apply Z.ltb_lt in E.
    apply show_current_in_range. destruct Hr as (H0 & H1).
    apply set_index_in_range; [lia | intros _; lia].
  - unfold show_previous_image.
    destruct (0 <? _) eqn:E; [|exact Hr]. apply Z.ltb_lt in E.
    apply show_current_in_range. destruct Hr as (H0 & H1).
    apply set_index_in_range; [lia | intros Hne; specialize (H1 Hne); lia].
  - apply start_automated_processing_in_range, Hr.
Qed.

Lemma run_commands_in_range (d : disk) (t : tree) (cs : list command)
      (b : browser (F:=F)) :
  index_in_range b -> index_in_range (run_commands d t cs b).
Proof.
  revert b. induction cs as [|c cs IH]; intros b Hr; [exact Hr|].
  apply IH, after_in_range, Hr.
Qed.

Lemma int_of_text_raises (s : string) (e : exn) :
  int_of_text s = Raise e -> e = ValueError.
Proof.
  unfold int_of_text, int_of_string, int_of_chars.
  destruct (_ <? _)%nat; [congruence|].
  destruct (drop_underscores None _) as [t|]; [|congruence].
  destruct (take_sign t) as [neg body].
  destruct (take_digits body 0 0) as [[v n] rest].
  destruct rest; [|congruence]. destruct (0 <? n); congruence.
Qed.

(** Moving to a position of the list and showing its entry. *)
Lemma show_current_at (d : disk) (b : browser (F:=F)) (i : Z) :
  0 <= i < Z.of_nat (List.length (image_files_for_auto b)) ->
  let b' := fst (show_current_automated_image d (set_index i b)) in
  snd (show_current_automated_image d (set_index i b)) = Ok tt
  /\ current_image_index b' = i
  /\ same_list b b'
  /\ exists p,
       entry_at b i = Some p
       /\ shows d p (viewer b) (viewer b')
       /\ (nav_entry_var b' = nav_entry_var b \/ nav_entry_var b' = str_of_int (i + 1))
       /\ (annotated_image (F:=F) d (fst (fst p)) (snd (fst p)) (Some (snd p)) = None ->
           viewer b' = viewer b /\ nav_entry_var b' = nav_entry_var b).
Proof.
  intros Hi.
  destruct (@subscript_in_range _ (image_files_for_auto b) i Hi) as (p & _ & Hp).
  destruct (@show_current_spec d (set_index i b) p (proj1 Hi) Hp)
    as (Hok & Hv & Hidx & Hl & He & Hnone).
  split; [exact Hok|]. split; [exact Hidx|]. split; [exact Hl|].
  exists p. unfold entry_at.
  destruct (i <? 0) eqn:E; [apply Z.ltb_lt in E; lia|].
  split; [exact Hp|]. split; [exact Hv|]. split; [exact He|].
  intros Hn. rewrite (Hnone Hn). split; reflexivity.
Qed.

End NavigationFacts.

(** X14. Whatever the user does, [current_image_index] is never
    negative, and it is a position of [image_files_for_auto] whenever
    that list is not empty.  So the subscript of line 531 never raises
    [IndexError] and never counts from the end of the list. *)
Theorem index_stays_in_range :
  forall (F : Type) (NumF : Number F) (d : disk) (t : Navigation.tree)
         (cs : list (Navigation.command (F:=F))) (canvas : Z * Z),
    let b := Navigation.run_commands d t cs (Navigation.start canvas) in
    index_in_range b
    /\ (Navigation.image_files_for_auto b <> [] ->
        exists p,
          PyOs.subscript (Navigation.image_files_for_auto b)
                         (Navigation.current_image_index b) = Ok p
          /\ nth_error (Navigation.image_files_for_auto b)
                       (Z.to_nat (Navigation.current_image_index b)) = Some p).
Proof.
  intros F NumF d t cs canvas b.
  assert (Hr : index_in_range b).
  { apply run_commands_in_range. split; [reflexivity | intros H; exfalso; apply H; reflexivity]. }
  split; [exact Hr|]. intros Hne. destruct Hr as (H0 & H1).
  apply subscript_in_range. split; [exact H0 | apply H1, Hne].
Qed.





(* ================================================================== *)
(** * The folder scan of [start_automated_processing] *)

Section ScanFacts.
Import PyOs Navigation.

Lemma leb_trans (a : string) :
  forall b c, String.leb a b = true -> String.leb b c = true -> String.leb a c = true.
Proof.
  unfold String.leb.
  induction a as [|x a IH]; intros [|y b] [|z c]; simpl; try congruence.
  unfold Ascii.compare.
  destruct (N.compare_spec (N_of_ascii x) (N_of_ascii y)) as [Hxy|Hxy|Hxy];
    destruct (N.compare_spec (N_of_ascii y) (N_of_ascii z)) as [Hyz|Hyz|Hyz];
    destruct (N.compare_spec (N_of_ascii x) (N_of_ascii z)) as [Hxz|Hxz|Hxz];
    try congruence; try (exfalso; lia).
  apply IH.
Qed.

Lemma insert_sorted_in (s x : string) (l : list string) :
  In x (insert_sorted s l) <-> x = s \/ In x l.
Proof.
  induction l as [|t r IH]; simpl; [intuition|].
  destruct (String.leb s t); simpl; [intuition|]. rewrite IH. intuition.
Qed.

Lemma insert_sorted_ascending (s : string) (l : list string) :
  ascending l -> ascending (insert_sorted s l).
Proof.
  induction l as [|t r IH]; intros Hl; simpl; [auto|].
  destruct Hl as (Ht & Hr).
  destruct (String.leb s t) eqn:E; simpl.
  - split; [|split; assumption]. constructor; [exact E|].
    eapply Forall_impl; [|exact Ht]. intros y Hy. exact (@leb_trans s t y E Hy).
  - split; [|apply IH, Hr].
    apply Forall_forall. intros y Hy. apply insert_sorted_in in Hy.
    destruct Hy as [-> | Hy].
    + destruct (String.leb_total s t) as [H|H]; [congruence | exact H].
    + rewrite Forall_forall in Ht. apply Ht, Hy.
Qed.

Lemma sorted_ascending (l : list string) : ascending (sorted l).
Proof.
  induction l as [|s l IH]; simpl; [exact I|]. apply insert_sorted_ascending, IH.
Qed.

Lemma sorted_in (x : string) (l : list string) : In x (sorted l) <-> In x l.
Proof.
  induction l as [|s l IH]; simpl; [tauto|].
  rewrite insert_sorted_in, IH. intuition.
Qed.

Lemma insert_sorted_length (s : string) (l : list string) :
  List.length (insert_sorted s l) = S (List.length l).
Proof.
  induction l as [|t r IH]; simpl; [reflexivity|].
  destruct (String.leb s t); simpl; [reflexivity | rewrite IH; reflexivity].
Qed.

Lemma sorted_length (l : list string) : List.length (sorted l) = List.length l.
Proof.
  induction l as [|s l IH]; simpl; [reflexivity|].
  rewrite insert_sorted_length, IH. reflexivity.
Qed.

Lemma ascending_filter (f : string -> bool) (l : list string) :
  ascending l -> ascending (filter f l).
Proof.
  induction l as [|x r IH]; intros Hl; simpl; [exact I|].
  destruct Hl as (Hx & Hr). destruct (f x); simpl; [|apply IH, Hr].
  split; [|apply IH, Hr].
  apply Forall_forall. intros y Hy. apply filter_In in Hy.
  rewrite Forall_forall in Hx. apply Hx, Hy.
Qed.

Lemma find_existsb A (f : A -> bool) (l : list A) :
  match List.find f l with Some _ => true | None => false end = existsb f l.
Proof.
  induction l as [|x r IH]; simpl; [reflexivity|]. destruct (f x); [reflexivity | exact IH].
Qed.

Lemma pair_up_cons (d : disk) (labels_dir : string) (cn : list string)
      (img : string) (r : list string) :
  pair_up d labels_dir cn (img :: r)
  = match List.find (path_exists d) (label_candidates labels_dir img) with
    | Some label_path => [(img, label_path, cn)]
    | None => []
    end ++ pair_up d labels_dir cn r.
Proof. reflexivity. Qed.

(** The images of the pairs are the image paths that have a label, in
    the order of the paths. *)
Lemma pair_up_images (d : disk) (labels_dir : string) (cn : list string)
      (image_paths : list string) :
  map image_of (pair_up d labels_dir cn image_paths)
  = filter (fun img => existsb (path_exists d) (label_candidates labels_dir img))
           image_paths.
Proof.
  induction image_paths as [|img r IH]; [reflexivity|].
  rewrite pair_up_cons, map_app. cbn [filter].
  rewrite <- find_existsb.
  destruct (List.find _ _); simpl; [f_equal|]; exact IH.
Qed.

Lemma pair_up_labels (d : disk) (labels_dir : string) (cn : list string)
      (image_paths : list string) :
  Forall (fun p =>
            List.find (path_exists d) (label_candidates labels_dir (image_of p))
            = Some (label_of p)
            /\ snd p = cn)
         (pair_up d labels_dir cn image_paths).
Proof.
  induction image_paths as [|img r IH]; [constructor|].
  rewrite pair_up_cons. apply Forall_app. split; [|exact IH].
  destruct (List.find _ _) as [l|] eqn:E; constructor; [|constructor].
  split; [exact E | reflexivity].
Qed.

(** The list a scan leaves in the browser. *)
Lemma start_automated_processing_list (F : Type) (NumF : Number F) (d : disk)
      (t : tree) (root_folder : string) (b : browser (F:=F)) (names : list string) :
  root_folder <> "" -> isdir t root_folder = true ->
  listdir t (fst (scan_dirs t root_folder)) = Ok names ->
  let b' := fst (start_automated_processing d t root_folder b) in
  image_files_for_auto b'
  = pair_up d (snd (scan_dirs t root_folder)) (folder_class_names d root_folder)
            (sorted (map (join (fst (scan_dirs t root_folder)))
                         (filter is_image_name names)))
  /\ (image_files_for_auto b' <> [] -> current_image_index b' = 0)
  /\ (image_files_for_auto b' = [] ->
      current_image_index b' = current_image_index b
      /\ viewer b' = viewer b
      /\ shown b' = NoPairsFound :: shown b).
Proof.
  intros Hroot Hdir Hls. unfold start_automated_processing.
  destruct (String.eqb_spec root_folder ""); [contradiction|].
  rewrite Hdir. simpl negb. simpl orb. cbv iota.
  fold (folder_class_names d root_folder).
  unfold scan_dirs in *.
  destruct (negb (isdir t (join root_folder "images"))
            || negb (isdir t (join root_folder "labels"))); simpl in Hls |- *;
    rewrite Hls;
    match goal with |- context [pair_up ?d ?ld ?cn ?ps] =>
      set (pairs := pair_up d ld cn ps)
    end;
    (destruct pairs as [|p ps] eqn:Ep;
     [simpl; repeat split; congruence|];
     destruct (@show_current_at F NumF d (set_files (p :: ps) b) 0)
       as (_ & Hi & (Hl & _) & _); [simpl; lia|];
     simpl in Hl; split; [exact Hl|]; split; [intros _; exact Hi|];
     intros H; rewrite Hl in H; discriminate H).
Qed.

End ScanFacts.

(** X17. What the folder scan of [start_automated_processing] leaves in
    [image_files_for_auto], for a folder that can be listed.  The images
    of the pairs are in ascending order of their paths.  An image path
    is in the list exactly when it is the join of the image directory
    and a listed name that ends in [.png], [.jpg] or [.jpeg] (in any
    letter case), and one of its three label files exists.  Its label is
    the first that exists of [<base>.json], [<base>.xml], [<base>.txt]
    in the label directory, and every pair carries the class names of
    the folder.  There are at most as many pairs as listed names.  When
    there is a pair the index is set to 0; when there is none the index
    and the viewer stay and a message box is shown. *)
Theorem folder_scan_pairs_images_with_labels :
  forall (F : Type) (NumF : Number F) (d : disk) (t : Navigation.tree)
         (root_folder : string) (b : Navigation.browser (F:=F))
         (names : list string),
    root_folder <> "" ->
    Navigation.isdir t root_folder = true ->
    Navigation.listdir t (fst (scan_dirs t root_folder)) = Ok names ->
    let images_dir := fst (scan_dirs t root_folder) in
    let labels_dir := snd (scan_dirs t root_folder) in
    let b' := fst (Navigation.start_automated_processing d t root_folder b) in
    let pairs := Navigation.image_files_for_auto b' in
    ascending (map image_of pairs)
    /\ (forall img,
          In img (map image_of pairs)
          <-> (exists f, In f names /\ Navigation.is_image_name f = true
                         /\ img = PyOs.join images_dir f)
              /\ existsb (path_exists d) (label_candidates labels_dir img) = true)
    /\ Forall (fun p =>
                 List.find (path_exists d)
                           (label_candidates labels_dir (image_of p))
                 = Some (label_of p)
                 /\ snd p = folder_class_names d root_folder)
              pairs
    /\ (List.length pairs <= List.length names)%nat
    /\ (pairs <> [] -> Navigation.current_image_index b' = 0)
    /\ (pairs = [] ->
        Navigation.current_image_index b' = Navigation.current_image_index b
        /\ Navigation.viewer b' = Navigation.viewer b
        /\ Navigation.shown b' = Navigation.NoPairsFound :: Navigation.shown b).
Proof.
  intros F NumF d t root b names Hroot Hdir Hls images_dir labels_dir b' pairs.
  destruct (@start_automated_processing_list F NumF d t root b names Hroot Hdir Hls)
    as (Hl & H0 & Hnone).
  fold b' in Hl, H0, Hnone. fold pairs in Hl, H0, Hnone.
  fold images_dir labels_dir in Hl.
  split; [|split; [|split; [|split; [|split; assumption]]]].
  - rewrite Hl, pair_up_images. apply ascending_filter, sorted_ascending.
  - intros img. rewrite Hl, pair_up_images, filter_In, sorted_in, in_map_iff.
    split.
    + intros ((f & <- & Hf) & He). apply filter_In in Hf. split; [|exact He].
      exists f. intuition.
    + intros ((f & Hf & Hi & ->) & He). split; [|exact He].
      exists f. split; [reflexivity|]. apply filter_In. auto.
  - rewrite Hl. apply pair_up_labels.
  - rewrite <- (length_map image_of), Hl, pair_up_images.
    etransitivity; [apply filter_length_le|].
    rewrite sorted_length, length_map. apply filter_length_le.
Qed.

Lemma folder_scan_pairs_images_with_labels_witness :
  let d := Disk (World (fun _ => Raise FileNotFoundError)
                       (fun _ => Raise FileNotFoundError) (fun _ => Ok ""))
                (fun p => existsb (String.eqb p)
                            ["set/labels/a.txt"; "set/labels/b.xml"; "set/labels/b.txt"])
                (fun _ => Ok (400, 300)) in
  let t := Navigation.Tree (fun _ => true)
                           (fun _ => Ok ["b.PNG"; "notes.md"; "c.jpg"; "a.jpeg"]) in
  map (fun p => (image_of p, label_of p))
      (Navigation.image_files_for_auto
         (fst (Navigation.start_automated_processing d t "set"
                 (Navigation.start (F:=float) (800, 600)))))
  = [("set/images/a.jpeg", "set/labels/a.txt");
     ("set/images/b.PNG", "set/labels/b.xml")]
  /\ ascending
       (map image_of
          (Navigation.image_files_for_auto
             (fst (Navigation.start_automated_processing d t "set"
                     (Navigation.start (F:=float) (800, 600)))))).
Proof.
  intros d t. split; [vm_compute; reflexivity|].
  assert (Hroot : "set" <> "") by discriminate.
  exact (proj1 (@folder_scan_pairs_images_with_labels float binary64 d t "set"
                  (Navigation.start (800, 600))
                  ["b.PNG"; "notes.md"; "c.jpg"; "a.jpeg"] Hroot eq_refl eq_refl)).
Defined.

(* ================================================================== *)
(** * Fitting the image to the canvas *)

Section ExactFacts.

Lemma quot_of_integer (x : Q) (n : Z) :
  x == inject_Z n -> Z.quot (Qnum x) (Zpos (Qden x)) = n.
Proof.
  unfold Qeq. simpl. intros H. rewrite Z.mul_1_r in H. rewrite H.
  apply Z.quot_mul. discriminate.
Qed.

Lemma quot_bounds (x : Q) (n : Z) :
  (0 <= x)%Q -> (x <= inject_Z n)%Q ->
  0 <= Z.quot (Qnum x) (Zpos (Qden x)) <= n.
Proof.
  unfold Qle. simpl. rewrite !Z.mul_1_r. intros H0 Hn.
  rewrite Z.quot_div_nonneg by lia. split.
  - apply Z.div_pos; lia.
  - apply Z.div_le_upper_bound; lia.
Qed.

Lemma exact_pymin (u v : Q) :
  (pymin u v = u /\ (u <= v)%Q) \/ (pymin u v = v /\ (v <= u)%Q).
Proof.
  unfold pymin. simpl. destruct (Qle_bool u v) eqn:E; simpl.
  - left. split; [reflexivity|]. apply Qle_bool_iff, E.
  - right. split; [reflexivity|].
    destruct (Qlt_le_dec v u) as [H|H]; [apply Qlt_le_weak, H|].
    apply Qle_bool_iff in H. congruence.
Qed.

Lemma exact_max0 (v : Q) : (0 <= v)%Q -> max0 v == v.
Proof.
  intros Hv. unfold max0. simpl. destruct (Qle_bool v (inject_Z 0)) eqn:E; simpl.
  - apply Qle_bool_iff in E. apply Qle_antisym; [exact Hv | exact E].
  - reflexivity.
Qed.

Lemma ratio_positive (c i : Z) : 0 < c -> 0 < i -> (0 < inject_Z c / inject_Z i)%Q.
Proof.
  intros Hc Hi. apply Qlt_shift_div_l.
  - change 0%Q with (inject_Z 0). rewrite <- Zlt_Qlt. exact Hi.
  - rewrite Qmult_0_l. change 0%Q with (inject_Z 0). rewrite <- Zlt_Qlt. exact Hc.
Qed.

Lemma ratio_cancel (c i : Z) : 0 < i -> inject_Z i * (inject_Z c / inject_Z i) == inject_Z c.
Proof.
  intros Hi. field. intros H. unfold Qeq in H. simpl in H. lia.
Qed.

(** With an image and a canvas of more than one pixel [fit_image_to_canvas]
    assigns the zoom level and then the two offsets, and returns. *)
Lemma exact_fit (a : app (F:=Q)) (img : image) (cw ch iw ih : Z) :
  original_image_pil a = Some img -> size img = (iw, ih) ->
  canvas_size a = (cw, ch) -> 1 < cw -> 1 < ch -> 0 < iw -> 0 < ih ->
  let z := pymin (inject_Z cw / inject_Z iw)%Q (inject_Z ch / inject_Z ih)%Q in
  let disp_w := Z.quot (Qnum (inject_Z iw * z)%Q) (Zpos (Qden (inject_Z iw * z)%Q)) in
  let disp_h := Z.quot (Qnum (inject_Z ih * z)%Q) (Zpos (Qden (inject_Z ih * z)%Q)) in
  fit_image_to_canvas a
  = (set_offsets (max0 (inject_Z (cw - disp_w) / inject_Z 2)%Q)
                 (max0 (inject_Z (ch - disp_h) / inject_Z 2)%Q)
                 (set_zoom z a), Ok tt).
Proof.
  intros Himg Hsz Hcv Hcw Hch Hiw Hih z disp_w disp_h.
  assert (E : (cw <=? 1) || (ch <=? 1) || (iw <=? 0) || (ih <=? 0) = false).
  { destruct (cw <=? 1) eqn:E1; [apply Z.leb_le in E1; lia|].
    destruct (ch <=? 1) eqn:E2; [apply Z.leb_le in E2; lia|].
    destruct (iw <=? 0) eqn:E3; [apply Z.leb_le in E3; lia|].
    destruct (ih <=? 0) eqn:E4; [apply Z.leb_le in E4; lia|]. reflexivity. }
  unfold fit_image_to_canvas, mbind, read. rewrite Himg. cbv beta iota.
  rewrite Hcv, Hsz, E.
  unfold assign, redraw_canvas, mbind, read, lift.
  cbv beta. cbn [original_image_pil set_zoom canvas_size zoom_level fst snd].
  rewrite Himg. cbv beta iota.
  cbn [original_image_pil set_zoom canvas_size zoom_level fst snd].
  rewrite Hsz, Hcv. reflexivity.
Qed.

End ExactFacts.

(** X18. Fitting, with the arithmetic read over the rationals.  For an
    image of positive size and a canvas of more than one pixel each way,
    [fit_image_to_canvas] sets the zoom level so that the size the
    image is then displayed at fills the canvas along one axis and does
    not exceed it along the other; the two offsets centre it.  In binary64 the filled
    axis can come out one pixel short: an image 97 pixels wide fitted to
    a canvas 800 pixels wide is displayed 799 pixels wide, at offset
    0.5. *)
Theorem fit_fills_the_canvas :
  (forall (a : app (F:=Q)) (img : image) (cw ch iw ih : Z),
     original_image_pil a = Some img -> size img = (iw, ih) ->
     canvas_size a = (cw, ch) -> 1 < cw -> 1 < ch -> 0 < iw -> 0 < ih ->
     let a' := fst (fit_image_to_canvas a) in
     exists disp_w disp_h,
          displayed_size a' iw ih = Ok (disp_w, disp_h)
          /\ 0 <= disp_w <= cw /\ 0 <= disp_h <= ch
          /\ (disp_w = cw \/ disp_h = ch)
          /\ image_x_offset a' == inject_Z (cw - disp_w) / inject_Z 2
          /\ image_y_offset a' == inject_Z (ch - disp_h) / inject_Z 2)
  /\ (let a := run_events narrow_disk [ProcessSingleImage "a.png" "a.txt" ""]
                          (initial (F:=float) (800, 600)) in
      displayed_size a 97 50 = Ok (799, 412)
      /\ image_x_offset a = 0.5%float).
Proof.
  split; [|vm_compute; split; reflexivity].
  intros a img cw ch iw ih Himg Hsz Hcv Hcw Hch Hiw Hih a'.
  subst a'. rewrite (@exact_fit a img cw ch iw ih Himg Hsz Hcv Hcw Hch Hiw Hih).
  cbn [fst snd].
  set (z := pymin (inject_Z cw / inject_Z iw)%Q (inject_Z ch / inject_Z ih)%Q).
  set (disp_w := Z.quot (Qnum (inject_Z iw * z)%Q) (Zpos (Qden (inject_Z iw * z)%Q))).
  set (disp_h := Z.quot (Qnum (inject_Z ih * z)%Q) (Zpos (Qden (inject_Z ih * z)%Q))).
  exists disp_w, disp_h. split; [reflexivity|].
  assert (Hrw : (0 < inject_Z cw / inject_Z iw)%Q) by (apply ratio_positive; lia).
  assert (Hrh : (0 < inject_Z ch / inject_Z ih)%Q) by (apply ratio_positive; lia).
  assert (Hqw : (0 < inject_Z iw)%Q)
    by (change 0%Q with (inject_Z 0); rewrite <- Zlt_Qlt; exact Hiw).
  assert (Hqh : (0 < inject_Z ih)%Q)
    by (change 0%Q with (inject_Z 0); rewrite <- Zlt_Qlt; exact Hih).
  assert (Hz : (0 < z)%Q).
  { subst z. destruct (exact_pymin (inject_Z cw / inject_Z iw)%Q (inject_Z ch / inject_Z ih)%Q)
      as [(-> & _)|(-> & _)]; assumption. }
  assert (Hbw : 0 <= disp_w <= cw /\ 0 <= disp_h <= ch /\ (disp_w = cw \/ disp_h = ch)).
  { subst disp_w disp_h.
    destruct (exact_pymin (inject_Z cw / inject_Z iw)%Q (inject_Z ch / inject_Z ih)%Q)
      as [(Hp & Hle)|(Hp & Hle)]; fold z in Hp.
    - assert (Hw : inject_Z iw * z == inject_Z cw)
        by (rewrite Hp; apply ratio_cancel, Hiw).
      assert (Hh : (inject_Z ih * z <= inject_Z ch)%Q).
      { rewrite Hp. rewrite <- (@ratio_cancel ch ih Hih).
        apply Qmult_le_l; [exact Hqh | exact Hle]. }
      rewrite (@quot_of_integer _ _ Hw).
      split; [lia|]. split; [|left; reflexivity].
      apply quot_bounds; [|exact Hh].
      apply Qmult_le_0_compat; apply Qlt_le_weak; assumption.
    - assert (Hh : inject_Z ih * z == inject_Z ch)
        by (rewrite Hp; apply ratio_cancel, Hih).
      assert (Hw : (inject_Z iw * z <= inject_Z cw)%Q).
      { rewrite Hp. rewrite <- (@ratio_cancel cw iw Hiw).
        apply Qmult_le_l; [exact Hqw | exact Hle]. }
      rewrite (@quot_of_integer _ _ Hh).
      split; [|split; [lia | right; reflexivity]].
      apply quot_bounds; [|exact Hw].
      apply Qmult_le_0_compat; apply Qlt_le_weak; assumption. }
  destruct Hbw as (Hw & Hh & Hor).
  split; [exact Hw|]. split; [exact Hh|]. split; [exact Hor|].
  cbn [image_x_offset image_y_offset set_offsets].
  split; apply exact_max0.
  - apply Qle_shift_div_l; [reflexivity|]. rewrite Qmult_0_l.
    change 0%Q with (inject_Z 0). rewrite <- Zle_Qle. lia.
  - apply Qle_shift_div_l; [reflexivity|]. rewrite Qmult_0_l.
    change 0%Q with (inject_Z 0). rewrite <- Zle_Qle. lia.
Qed.

Lemma fit_fills_the_canvas_witness :
  let a := set_canvas (800, 600) (0, 0)%Q
             (set_image (Image "a.png" (400, 200) []) (initial (F:=Q) (1, 1))) in
  exists disp_w disp_h,
    displayed_size (fst (fit_image_to_canvas a)) 400 200 = Ok (disp_w, disp_h)
    /\ (disp_w = 800 \/ disp_h = 600).
Proof.
  intros a.
  destruct (proj1 fit_fills_the_canvas a (Image "a.png" (400, 200) []) 800 600 400 200
              eq_refl eq_refl eq_refl ltac:(lia) ltac:(lia) ltac:(lia) ltac:(lia))
    as (dw & dh & Hd & _ & _ & Hor & _).
  exists dw, dh. split; assumption.
Defined.

(* ================================================================== *)
(** * Labels that are not strings *)

Lemma for_each_keeps A (body : A -> result (option box)) items :
  forall acc b, In b acc -> In b (fst (for_each body items acc)).
Proof.
  induction items as [|a items IH]; intros acc b Hb; simpl; [exact Hb|].
  destruct (body a) as [[b'|]|e]; simpl.
  - apply IH, in_or_app. left. exact Hb.
  - apply IH, Hb.
  - exact Hb.
Qed.

(** An entry that gives a box, after entries that do not raise: the box
    is in the result, whatever the entries after it do. *)
Lemma for_each_reaches A (body : A -> result (option box)) pre x post b :
  snd (for_each body pre []) = None ->
  body x = Ok (Some b) ->
  In b (fst (for_each body (pre ++ x :: post) [])).
Proof.
  intros Hpre Hx. rewrite for_each_app.
  destruct (for_each body pre []) as [acc [e|]]; [discriminate Hpre|].
  simpl. rewrite Hx. apply for_each_keeps, in_or_app. right. left. reflexivity.
Qed.

Lemma unlabelled_box_blocks (F : Type) (NumF : Number F) (d : disk)
      (img_path label_path : string) (cn : option (list string)) (b : box) :
  (forall W H, In b (annotations (parse_annotations (files d) label_path W H cn))) ->
  ~ string_label b ->
  annotated_image (F:=F) d img_path label_path cn = None.
Proof.
  intros Hin Hb. unfold annotated_image, draw_bounding_boxes.
  destruct (Image_open d img_path) as [sz|e]; [|reflexivity].
  destruct (@draw_boxes_fails F
              (annotations (parse_annotations (files d) label_path (fst sz) (snd sz) cn)))
    with (im := Image (F:=F) img_path sz []) as (e & ->); [|reflexivity].
  apply Exists_exists. exists b. split; [apply Hin | exact Hb].
Qed.

Lemma parse_annotations_boxes w path W H cn :
  annotations (parse_annotations w path W H cn)
  = annotations (try_block w path W H cn).
Proof.
  unfold parse_annotations. destruct (raised (try_block w path W H cn)); reflexivity.
Qed.

(** X19. One label that is not a string keeps the whole image from
    being shown.  An XML [object] whose [name] element has no text gets
    the label [None]; a JSON entry may carry any value as its label.
    When such an entry has its four coordinates and no entry before it
    raises, [draw_bounding_boxes] fails on [label.lower()] and returns
    [None], whatever the other entries are: the loader displays nothing
    and leaves the state as it was. *)
Theorem label_that_is_not_a_string_blocks_display :
  forall (F : Type) (NumF : Number F) (d : disk) (a : app (F:=F))
         (img_path label_path : string) (class_names : list string),
    ((forall (tag : string) (text : option string) (pre post : list xml)
            (obj name bndbox : xml) (xmin ymin xmax ymax : Z),
        file_extension label_path = ".xml" ->
        ET_parse (files d) label_path = Ok (Element tag text (pre ++ obj :: post)) ->
        tag_of obj = "object" ->
        find "name" obj = Some name -> text_of name = None ->
        find "bndbox" obj = Some bndbox ->
        xml_coord bndbox "xmin" = Ok xmin -> xml_coord bndbox "ymin" = Ok ymin ->
        xml_coord bndbox "xmax" = Ok xmax -> xml_coord bndbox "ymax" = Ok ymax ->
        snd (for_each xml_object (findall "object" (Element tag text pre)) []) = None ->
        annotated_image (F:=F) d img_path label_path (Some class_names) = None)
     /\
     (forall (pre post : list json) (e c : list (string * json)) (x y w h : Z),
        file_extension label_path = ".json" ->
        json_load (files d) label_path = Ok (custom_json (pre ++ JDict e :: post)) ->
        dict_get "coordinates" e = JDict c ->
        dict_get "x" c = JInt x -> dict_get "y" c = JInt y ->
        dict_get "width" c = JInt w -> dict_get "height" c = JInt h ->
        (forall s, dict_get_default "label" (JStr "No Label") e <> JStr s) ->
        snd (for_each json_entry pre []) = None ->
        annotated_image (F:=F) d img_path label_path (Some class_names) = None))
    /\ (annotated_image (F:=F) d img_path label_path (Some class_names) = None ->
        step d a (ShowAutomatedImage (img_path, label_path, class_names)) = a).
Proof.
  intros F NumF d a img_path label_path names. split; [split|].
  - intros tag text pre post obj name bndbox xmin ymin xmax ymax
           Hext Hparse Htag Hname Htext Hbb Hx0 Hy0 Hx1 Hy1 Hpre.
    apply (@unlabelled_box_blocks F NumF d img_path label_path (Some names)
             (Box JNull xmin ymin xmax ymax)).
    + intros W H. rewrite parse_annotations_boxes. unfold try_block.
      rewrite Hext. change (format_of ".xml") with Xml. cbv iota.
      unfold parse_xml. rewrite Hparse.
      assert (Hobj : xml_object obj = Ok (Some (Box JNull xmin ymin xmax ymax))).
      { unfold xml_object. rewrite Hname, Htext, Hbb, Hx0, Hy0, Hx1, Hy1. reflexivity. }
      pose proof (@for_each_reaches xml xml_object
                    (findall "object" (Element tag text pre)) obj
                    (findall "object" (Element tag text post)) _ Hpre Hobj) as Hin.
      replace (findall "object" (Element tag text (pre ++ obj :: post)))
        with (findall "object" (Element tag text pre)
              ++ obj :: findall "object" (Element tag text post)).
      * revert Hin.
        match goal with |- In _ (fst ?t) -> _ => destruct t as [acc0 e0] end.
        intros Hin. exact Hin.
      * rewrite findall_app. f_equal. unfold findall. simpl. rewrite Htag. reflexivity.
    + intros (s & Hs). discriminate Hs.
  - intros pre post e c x y w h Hext Hload Hc Hx Hy Hw Hh Hlabel Hpre.
    apply (@unlabelled_box_blocks F NumF d img_path label_path (Some names)
             (Box (dict_get_default "label" (JStr "No Label") e) x y (x + w) (y + h))).
    + intros W H. rewrite parse_annotations_boxes. unfold try_block.
      rewrite Hext. change (format_of ".json") with Json. cbv iota.
      unfold parse_json. rewrite Hload.
      change (json_shape_ok (custom_json (pre ++ JDict e :: post))) with (Ok true).
      change (json_entries (custom_json (pre ++ JDict e :: post)))
        with (Ok (pre ++ JDict e :: post)).
      cbv iota.
      pose proof (@for_each_reaches json json_entry pre (JDict e) post _ Hpre
                    (json_entry_int_fields e Hc Hx Hy Hw Hh)) as Hin.
      revert Hin.
      match goal with |- In _ (fst ?t) -> _ => destruct t as [acc0 e0] end.
      intros Hin. exact Hin.
    + intros (s & Hs). exact (Hlabel s Hs).
  - intros Hnone.
    pose proof (@load_and_show_loaded F NumF d img_path label_path (Some names) a)
      as (Hl & _).
    rewrite Hnone in Hl. exact Hl.
Qed.

Lemma label_that_is_not_a_string_blocks_display_witness :
  let car := Element "object" None
               [Element "name" (Some "car") [];
                Element "bndbox" None
                  [Element "xmin" (Some "1") []; Element "ymin" (Some "2") [];
                   Element "xmax" (Some "3") []; Element "ymax" (Some "4") []]] in
  let unnamed := Element "object" None
               [Element "name" None [];
                Element "bndbox" None
                  [Element "xmin" (Some "5") []; Element "ymin" (Some "6") [];
                   Element "xmax" (Some "7") []; Element "ymax" (Some "8") []]] in
  let d := Disk (World (fun _ => Raise FileNotFoundError)
                       (fun _ => Ok (Element "annotation" None [car; unnamed; car]))
                       (fun _ => Raise FileNotFoundError))
                (fun _ => true) (fun _ => Ok (400, 300)) in
  annotated_image (F:=float) d "a.png" "a.xml" (Some []) = None.
Proof.
  intros car unnamed d.
  refine (proj1 (proj1 (@label_that_is_not_a_string_blocks_display float binary64 d
                           (initial (800, 600)) "a.png" "a.xml" []))
            "annotation" None [car] [car] unnamed (Element "name" None [])
            (Element "bndbox" None
               [Element "xmin" (Some "5") []; Element "ymin" (Some "6") [];
                Element "xmax" (Some "7") []; Element "ymax" (Some "8") []])
            5 6 7 8 _ _ _ _ _ _ _ _ _ _ _); vm_compute; reflexivity.
Defined.

(* ================================================================== *)
(** * Drawing a stroke *)

Section GestureFacts.
Context {F : Type} {NumF : Number F}.

(** [redraw_canvas] computes the offsets from the image, the canvas size
    and the zoom level, and changes nothing else. *)
Lemma redraw_canvas_same_view (a s : app (F:=F)) :
  original_image_pil s = original_image_pil a ->
  canvas_size s = canvas_size a -> zoom_level s = zoom_level a ->
  image_x_offset s = image_x_offset a -> image_y_offset s = image_y_offset a ->
  settled a ->
  let s' := fst (redraw_canvas s) in
  image_x_offset s' = image_x_offset a /\ image_y_offset s' = image_y_offset a
  /\ original_image_pil s' = original_image_pil s
  /\ canvas_size s' = canvas_size s /\ canvas_origin s' = canvas_origin s
  /\ zoom_level s' = zoom_level s
  /\ drawings_on_canvas s' = drawings_on_canvas s
  /\ saved s' = saved s
  /\ drawing_active s' = drawing_active s
  /\ current_drawing_coords_unscaled s' = current_drawing_coords_unscaled s.
Proof.
  intros Hi Hc Hz Hx Hy (Sx & Sy). revert Sx Sy.
  cbv beta iota zeta delta [redraw_canvas mbind read lift ret assign].
  rewrite Hi.
  destruct (original_image_pil a) as [img|] eqn:Ea; cbv beta; cbn [fst];
    [|intros _ _; repeat split; congruence].
  rewrite Hc, Hz.
  destruct (trunc (nmul (of_int (fst (size img))) (zoom_level a))) as [dw|e];
    cbn [fst]; [|intros _ _; repeat split; congruence].
  destruct (trunc (nmul (of_int (snd (size img))) (zoom_level a))) as [dh|e];
    cbn [fst]; [|intros _ _; repeat split; congruence].
  cbn. intros Sx Sy. repeat split; congruence.
Qed.

Lemma do_draw_dragging (d : disk) (a s : app (F:=F)) (l : list F)
      (p : Z * Z) (q : F * F) :
  settled a -> dragging a s l -> image_point a p = Ok q ->
  dragging a (step d s (DoDraw (fst p) (snd p))) (l ++ [fst q; snd q]).
Proof.
  intros Hs (Hi & Hc & Ho & Hz & Hx & Hy & Hd & Hsv & Ha & Hcur) Hq.
  unfold step, handler, do_draw, current_coords, _canvas_to_image_coords,
    mbind, read, assign, ret.
  rewrite Ha. unfold canvasx, canvasy. rewrite Hz, Hx, Hy, Ho.
  unfold image_point, canvasx, canvasy in Hq. rewrite Hq, Hcur.
  match goal with |- dragging a (fst (redraw_canvas ?t)) _ =>
    destruct (@redraw_canvas_same_view a t Hi Hc Hz Hx Hy Hs)
      as (R1 & R2 & R3 & R4 & R5 & R6 & R7 & R8 & R9 & R10)
  end.
  unfold dragging. rewrite R1, R2, R3, R4, R5, R6, R7, R8, R9, R10.
  cbn. repeat split; assumption.
Qed.

Lemma motions_dragging (d : disk) (a : app (F:=F)) (rest : list (Z * Z)) :
  settled a ->
  forall (qs : list (F * F)) (s : app (F:=F)) (l : list F),
    dragging a s l ->
    Forall2 (fun p q => image_point a p = Ok q) rest qs ->
    dragging a (run_events d (map (fun p => DoDraw (fst p) (snd p)) rest) s)
             (l ++ flat qs).
Proof.
  intros Hs. induction rest as [|p rest IH]; intros qs s l Hd H2.
  - inversion H2; subst. simpl. rewrite app_nil_r. exact Hd.
  - inversion H2 as [|? q ? qs' Hq Hrest]; subst. cbn [map].
    rewrite run_events_cons.
    pose proof (IH qs' _ _ (@do_draw_dragging d a s l p q Hs Hd Hq) Hrest) as H.
    unfold flat in *. cbn [flat_map]. rewrite <- app_assoc in H. exact H.
Qed.

End GestureFacts.

(** X20. A drag in draw mode stores one stroke.  With an image shown
    and the offsets as [redraw_canvas] left them, a press, any number of
    motions and the release, at pointer positions whose image points can
    be computed (the zoom level is not zero), append to
    [drawings_on_canvas] exactly one blue line of width 2 whose
    coordinates are the image points of the positions, in order.  The
    image, the zoom level, the offsets and the saved files are as
    before, and no stroke is in progress afterwards. *)
Theorem drag_stores_one_stroke :
  forall (F : Type) (NumF : Number F) (d : disk) (a : app (F:=F))
         (img : image) (pts : list (Z * Z)) (qs : list (F * F)),
    original_image_pil a = Some img ->
    settled a ->
    pts <> [] ->
    Forall2 (fun p q => image_point a p = Ok q) pts qs ->
    let a' := run_events d (drag pts) a in
    drawings_on_canvas a'
    = drawings_on_canvas a
      ++ [(flat qs, "line", [("fill", OStr "blue"); ("width", OInt 2)])]
    /\ drawing_active a' = false
    /\ original_image_pil a' = Some img
    /\ zoom_level a' = zoom_level a
    /\ image_x_offset a' = image_x_offset a
    /\ image_y_offset a' = image_y_offset a
    /\ saved a' = saved a.
Proof.
  intros F NumF d a img pts qs Himg Hs Hne H2 a'. subst a'.
  destruct pts as [|[x y] rest]; [congruence|].
  inversion H2 as [|? q ? qs' Hq Hrest]; subst. unfold drag.
  rewrite run_events_cons.
  assert (H0 : dragging a (step d a (StartDraw x y)) [fst q; snd q]).
  { unfold step, handler, start_draw, _canvas_to_image_coords, mbind, read, assign.
    rewrite Himg. unfold image_point in Hq. cbn in Hq |- *.
    change (canvasx (set_active true a) x) with (canvasx a x).
    change (canvasy (set_active true a) y) with (canvasy a y).
    rewrite Hq.
    cbn. unfold dragging. cbn. repeat split. }
  pose proof (@motions_dragging F NumF d a rest Hs qs' _ _ H0 Hrest)
    as (Hi & Hc & Ho & Hz & Hx & Hy & Hd & Hsv & Ha & Hcur).
  replace (run_events d (map (fun p => DoDraw (fst p) (snd p)) rest ++ [EndDraw])
                      (step d a (StartDraw x y)))
    with (step d (run_events d (map (fun p => DoDraw (fst p) (snd p)) rest)
                             (step d a (StartDraw x y))) EndDraw)
    by (unfold run_events; rewrite fold_left_app; reflexivity).
  set (s := run_events d (map (fun p => DoDraw (fst p) (snd p)) rest)
                       (step d a (StartDraw x y))) in *.
  unfold step, handler, end_draw, current_coords.
  cbv beta iota zeta delta [mbind read assign ret throw].
  rewrite Ha. cbv beta iota. rewrite Hcur. cbv beta iota.
  match goal with |- context [redraw_canvas ?t] =>
    destruct (@redraw_canvas_same_view F NumF a t Hi Hc Hz Hx Hy Hs)
      as (R1 & R2 & R3 & R4 & R5 & R6 & R7 & R8 & R9 & R10)
  end.
  rewrite R1, R2, R3, R6, R7, R8, R9. cbn.
  rewrite Hd, Hi, Hz, Hsv. repeat split. exact Himg.
Qed.

Lemma drag_stores_one_stroke_witness :
  let a := run_events plain_disk [ProcessSingleImage "a.png" "a.txt" ""]
             (initial (F:=float) (800, 600)) in
  drawings_on_canvas (run_events plain_disk (drag [(104, 96); (180, 180); (20, 40)]) a)
  = [([52; 48; 90; 90; 10; 20]%float, "line",
      [("fill", OStr "blue"); ("width", OInt 2)])].
Proof.
  intros a.
  assert (Himg : original_image_pil a = Some (Image "a.png" (400, 300) []))
    by (vm_compute; reflexivity).
  assert (Hs : settled a) by (vm_compute; split; reflexivity).
  assert (Hne : [(104, 96); (180, 180); (20, 40)] <> @nil (Z * Z)) by discriminate.
  assert (H2 : Forall2 (fun p q => image_point a p = Ok q)
                       [(104, 96); (180, 180); (20, 40)]
                       [(52, 48); (90, 90); (10, 20)]%float).
  { repeat constructor; vm_compute; reflexivity. }
  pose proof (proj1 (@drag_stores_one_stroke float binary64 plain_disk a _ _ _
                       Himg Hs Hne H2)) as W.
  rewrite W. vm_compute. reflexivity.
Defined.

(* ================================================================== *)
(** * An XML object that cannot be read *)

Lemma float_of_string_raises (s : string) (e : exn) :
  float_of_string s = Raise e -> e = ValueError.
Proof.
  unfold float_of_string, float_of_chars.
  destruct (drop_underscores None _) as [t|]; [|congruence].
  destruct (take_sign t) as [neg body].
  destruct (special_float neg body); [discriminate|].
  destruct (take_digits body 0 0) as [[ip ni] r1].
  destruct (match r1 with
            | "."%char :: r => take_digits r ip 0
            | _ => (ip, 0, r1)
            end) as [[m nf] r2].
  destruct (0 <? ni + nf); [|congruence].
  destruct (take_exponent r2); [discriminate | congruence].
Qed.

Lemma int_of_float_raises (x : float) (e : exn) :
  int_of_float x = Raise e -> e = OverflowError \/ e = ValueError.
Proof.
  unfold int_of_float. destruct (Prim2SF x); intros H; inversion H; auto.
Qed.

Lemma xml_coord_raises (bndbox : xml) (tag : string) (e : exn) :
  xml_coord bndbox tag = Raise e -> coordinate_failure bndbox tag e.
Proof.
  unfold xml_coord, coordinate_failure, bind.
  destruct (find tag bndbox) as [el|]; [|intros H; inversion H; auto].
  intros H. right. exists el. split; [reflexivity|].
  destruct (text_of el) as [s|]; [|inversion H; auto].
  right. exists s. split; [reflexivity|].
  destruct (float_of_string s) as [v|e'] eqn:Ef.
  - destruct (int_of_float_raises _ H); auto.
  - inversion H; subst. left. apply (float_of_string_raises _ Ef).
Qed.

Lemma xml_object_raises (obj : xml) (e : exn) :
  xml_object obj = Raise e ->
  exists bndbox t,
    find "bndbox" obj = Some bndbox
    /\ In t ["xmin"; "ymin"; "xmax"; "ymax"]
    /\ xml_coord bndbox t = Raise e.
Proof.
  unfold xml_object, bind.
  destruct (find "bndbox" obj) as [bb|]; [|discriminate].
  intros H. exists bb.
  destruct (xml_coord bb "xmin") eqn:E1;
    [|exists "xmin"; split; [reflexivity|]; split; [simpl; auto | congruence]].
  destruct (xml_coord bb "ymin") eqn:E2;
    [|exists "ymin"; split; [reflexivity|]; split; [simpl; auto | congruence]].
  destruct (xml_coord bb "xmax") eqn:E3;
    [|exists "xmax"; split; [reflexivity|]; split; [simpl; auto | congruence]].
  destruct (xml_coord bb "ymax") eqn:E4;
    [discriminate
    |exists "ymax"; split; [reflexivity|]; split; [simpl; auto 6 | congruence]].
Qed.


